(** * Skin-weight transfer host script ([src/main.py]): model and properties

    The script loads two OBJ meshes through libigl, cleans them, runs the
    three-stage transfer pipeline of [utilities] (closest-point matching,
    inpainting, smoothing), shows the result in polyscope and dumps the
    target mesh as JSON.

    The embedding is shallow.  Python floats are IEEE binary64 numbers, so
    they are Rocq's primitive floats; numpy arrays are row lists with their
    column count; the script's effects (printing, polyscope calls, calls
    into [igl] and [utilities], the JSON dump, [exit]) are recorded by a
    small writer monad with early termination.  [igl] and [utilities] are
    not part of [src/main.py]: they are interfaces (records of operations)
    the script is parameterised by. *)

From Stdlib Require Import ZArith List String Ascii Floats Bool Lia.
From stdpp Require Import base option list strings.

Set Warnings "-inexact-float,-register-all".
Local Open Scope Z_scope.

(** ** numpy arrays *)

Module Numpy.

(** A two-dimensional array of shape [(length rows, ncols)].  The column
    count is kept apart from the rows because an array with no row still
    has one ([np.ones((0, 2))] has shape [(0, 2)]). *)
Record ndarray (A : Type) : Type := NDArray {
  ncols : nat;
  rows : list (list A)
}.
Arguments NDArray {A} ncols rows.
Arguments ncols {A} _.
Arguments rows {A} _.

(** [a.shape[0]] *)
Definition shape0 {A} (a : ndarray A) : nat := length (rows a).

(** Every row has [ncols] entries: what numpy guarantees by construction. *)
Definition rectangular {A} (a : ndarray A) : Prop :=
  Forall (fun r => length r = ncols a) (rows a).

(** [np.ones((n, k))] *)
Definition ones (n k : nat) : ndarray float :=
  NDArray k (replicate n (replicate k 1%float)).

(** [a.copy()]: a fresh array with the same contents. *)
Definition copy {A} (a : ndarray A) : ndarray A := NDArray (ncols a) (rows a).

(** [a[:, j]]; [None] stands for numpy's [IndexError] (column out of
    range). *)
Definition column {A} (j : nat) (a : ndarray A) : option (list A) :=
  if (j <? ncols a)%nat then mapM (fun r : list A => r !! j) (rows a)
  else None.

(** [a[:, j] = x] (broadcast of a scalar over column [j]); [None] stands
    for [IndexError]. *)
Definition set_column {A} (j : nat) (x : A) (a : ndarray A)
  : option (ndarray A) :=
  if (j <? ncols a)%nat
  then Some (NDArray (ncols a) (map (fun r : list A => <[j := x]> r) (rows a)))
  else None.

End Numpy.
Export Numpy.

(** ** JSON values, as [json.dump] receives them *)

Inductive json : Type :=
| JFloat (x : float)
| JInt (n : Z)
| JList (items : list json)
| JDict (items : list (string * json)).

(** [a.tolist()] for a float array and for an integer array: a list of rows,
    each a list of Python numbers. *)
Definition tolist_float (a : ndarray float) : json :=
  JList (map (fun r => JList (map JFloat r)) (rows a)).

Definition tolist_int (a : ndarray Z) : json :=
  JList (map (fun r => JList (map JInt r)) (rows a)).

(** The keys of a dict literal, in insertion order. *)
Definition dict_keys (j : json) : list string :=
  match j with
  | JDict items => map fst items
  | _ => []
  end.

(** Python's [dict[key]] (the first binding of [key]). *)
Fixpoint assoc_get (key : string) (items : list (string * json)) : option json :=
  match items with
  | [] => None
  | (k, v) :: rest => if String.eqb k key then Some v else assoc_get key rest
  end.

Definition dict_get (key : string) (j : json) : option json :=
  match j with
  | JDict items => assoc_get key items
  | _ => None
  end.

(** ** [os.path.join] (POSIX) for two components *)

Fixpoint endswith_sep (s : string) : bool :=
  match s with
  | EmptyString => false
  | String c EmptyString => Ascii.eqb c "/"%char
  | String _ rest => endswith_sep rest
  end.

Definition path_join (a b : string) : string :=
  if String.prefix "/" b then b
  else if String.eqb a "" || endswith_sep a then a +:+ b
  else a +:+ "/" +:+ b.

(** ** The collaborators of the script *)

(** What [igl.read_obj] returns: [v, vt, vn, f, ft, fn]. *)
Record obj_data : Type := ObjData {
  obj_v : ndarray float;
  obj_vt : ndarray float;
  obj_vn : ndarray float;
  obj_f : ndarray Z;
  obj_ft : ndarray Z;
  obj_fn : ndarray Z
}.

(** The operations of libigl the script calls.  [read_obj] reads the file
    system, which the script never changes before its last read, so it is a
    function of the path. *)
Record Igl : Type := {
  read_obj : string -> obj_data;
  remove_unreferenced :
    ndarray float -> ndarray Z -> ndarray float * ndarray Z * list Z * list Z;
  per_vertex_normals : ndarray float -> ndarray Z -> ndarray float;
  bounding_box_diagonal : ndarray float -> float
}.

(** Arguments of [find_matches_closest_surface], in positional order. *)
Record match_args : Type := MatchArgs {
  ma_vertices_1 : ndarray float;
  ma_faces_1 : ndarray Z;
  ma_normals_1 : ndarray float;
  ma_vertices_2 : ndarray float;
  ma_faces_2 : ndarray Z;
  ma_normals_2 : ndarray float;
  ma_skin_weights : ndarray float;
  ma_distance_threshold_squared : float;
  ma_angle_threshold_degrees : Z
}.

(** Arguments of [inpaint], in positional order. *)
Record inpaint_args : Type := InpaintArgs {
  ia_vertices_2 : ndarray float;
  ia_faces_2 : ndarray Z;
  ia_weights : ndarray float;
  ia_matched : list bool
}.

(** Arguments of [smooth]: five positional ones and the two keywords
    [num_smooth_iter_steps] and [smooth_alpha]. *)
Record smooth_args : Type := SmoothArgs {
  sa_vertices_2 : ndarray float;
  sa_faces_2 : ndarray Z;
  sa_weights : ndarray float;
  sa_matched : list bool;
  sa_distance_threshold : float;
  sa_num_smooth_iter_steps : Z;
  sa_smooth_alpha : float
}.

(** The three functions imported from [utilities].  Each returns a pair, as
    the script unpacks it; none of them changes its arguments. *)
Record Utilities : Type := {
  find_matches_closest_surface : match_args -> list bool * ndarray float;
  inpaint : inpaint_args -> ndarray float * bool;
  smooth : smooth_args -> ndarray float * list bool
}.

(** ** Effects *)

(** Values polyscope shows per vertex. *)
Inductive scalars : Type :=
| BoolScalars (flags : list bool)
| FloatScalars (values : list float).

(** What the script does that is visible from outside, in order. *)
Inductive event : Type :=
| EPsInit
| EReadObj (path : string)
| EPrint (message : string)
| ERegisterSurfaceMesh (name : string) (vertices : ndarray float)
    (faces : ndarray Z) (smooth_shade : bool)
| EAddVectorQuantity (mesh name : string) (values : ndarray float)
    (defined_on : string) (color : float * float * float)
| EAddScalarQuantity (mesh name : string) (values : scalars)
    (defined_on cmap : string)
| EFindMatches (args : match_args)
| EInpaint (args : inpaint_args)
| ESmooth (args : smooth_args)
| EJsonDump (path : string) (data : json)
| EPsShow.

Inductive exn : Type :=
| IndexError.

(** How a run ends: it returns, the process exits with a status
    ([exit(code)]), or an exception escapes. *)
Inductive outcome (A : Type) : Type :=
| Done (a : A)
| Exit (code : Z)
| Raised (e : exn).
Arguments Done {A} a.
Arguments Exit {A} code.
Arguments Raised {A} e.

(** A computation: how it ends and what it did until then. *)
Definition py (A : Type) : Type := outcome A * list event.

Definition py_ret {A} (a : A) : py A := (Done a, []).

Definition py_bind {A B} (m : py A) (k : A -> py B) : py B :=
  match m with
  | (Done a, t) => let (o, t') := k a in (o, t ++ t')
  | (Exit c, t) => (Exit c, t)
  | (Raised e, t) => (Raised e, t)
  end.

#[export] Instance py_mret : MRet py := @py_ret.
#[export] Instance py_mbind : MBind py := fun A B k m => py_bind m k.

Definition emit (e : event) : py unit := (Done tt, [e]).
Definition exit (code : Z) : py unit := (Exit code, []).
Definition print (message : string) : py unit := emit (EPrint message).

(** An indexing result: [None] raises [IndexError]. *)
Definition indexed {A} (r : option A) : py A :=
  match r with
  | Some a => (Done a, [])
  | None => (Raised IndexError, [])
  end.

Definition result {A} (m : py A) : outcome A := fst m.
Definition trace {A} (m : py A) : list event := snd m.

(** ** The script *)

(** What [cli.parse_arguments] hands to the script. *)
Record arguments : Type := ParsedArguments {
  source_mesh : string;
  target_mesh : string;
  output_file : string
}.

Section Script.

Variable igl : Igl.
Variable utilities : Utilities.

(** [os.path.dirname(os.path.abspath(__file__))] *)
Variable current_folder : string.

Definition load_mesh (mesh_path : string)
  : py (ndarray float * ndarray Z * ndarray float * ndarray float) :=
  emit (EReadObj mesh_path) ;;
  let o := read_obj igl mesh_path in
  let v := obj_v o in
  let vt := obj_vt o in
  let f := obj_f o in
  let vertices_original := copy v in
  let '(v, f, _, _) := remove_unreferenced igl v f in
  (if decide (shape0 vertices_original = shape0 v) then mret tt
   else print "[Warning] Mesh has unreferenced vertices which were removed") ;;
  let normals := per_vertex_normals igl v f in
  mret (v, f, normals, vt).

(** The [with open(output_file_path, 'w')] block is the single event
    [EJsonDump]: the file is opened, written and closed there and nowhere
    else. *)
Definition main (source_mesh target_mesh output_file : string) : py unit :=
  emit EPsInit ;;
  let source_mesh_path := path_join current_folder source_mesh in
  '(vertices_1, faces_1, normals_1, uvs_1) ← load_mesh source_mesh_path ;
  let target_mesh_path := path_join current_folder target_mesh in
  '(vertices_2, faces_2, normals_2, uvs_2) ← load_mesh target_mesh_path ;
  let skin_weights := ones (shape0 vertices_1) 2 in
  skin_weights ← indexed (set_column 0 0.3%float skin_weights) ;
  skin_weights ← indexed (set_column 1 0.7%float skin_weights) ;
  emit (ERegisterSurfaceMesh "SourceMesh" vertices_1 faces_1 true) ;;
  emit (ERegisterSurfaceMesh "TargetMesh" vertices_2 faces_2 true) ;;
  emit (EAddVectorQuantity "SourceMesh" "Normals" normals_1 "vertices"
          (0.2, 0.5, 0.5)%float) ;;
  emit (EAddVectorQuantity "TargetMesh" "Normals" normals_2 "vertices"
          (0.2, 0.5, 0.5)%float) ;;
  let distance_threshold :=
    (0.05 * bounding_box_diagonal igl vertices_2)%float in
  let distance_threshold_squared :=
    (distance_threshold * distance_threshold)%float in
  let angle_threshold_degrees := 30 in
  let args := MatchArgs vertices_1 faces_1 normals_1
                vertices_2 faces_2 normals_2 skin_weights
                distance_threshold_squared angle_threshold_degrees in
  emit (EFindMatches args) ;;
  let '(matched, interpolated_skin_weights) :=
    find_matches_closest_surface utilities args in
  emit (EAddScalarQuantity "TargetMesh" "Matched" (BoolScalars matched)
          "vertices" "blues") ;;
  let args := InpaintArgs vertices_2 faces_2 interpolated_skin_weights
                matched in
  emit (EInpaint args) ;;
  let '(inpainted_weights, success) := inpaint utilities args in
  (if negb success
   then print "[Error] Inpainting failed." ;; exit 0
   else mret tt) ;;
  bone1 ← indexed (column 0 inpainted_weights) ;
  emit (EAddScalarQuantity "TargetMesh" "Bone1" (FloatScalars bone1)
          "vertices" "blues") ;;
  bone2 ← indexed (column 1 inpainted_weights) ;
  emit (EAddScalarQuantity "TargetMesh" "Bone2" (FloatScalars bone2)
          "vertices" "blues") ;;
  let args := SmoothArgs vertices_2 faces_2 inpainted_weights matched
                distance_threshold 10 0.2%float in
  emit (ESmooth args) ;;
  let '(smoothed_inpainted_weights, vertex_ids_to_smooth) :=
    smooth utilities args in
  emit (EAddScalarQuantity "TargetMesh" "VertexIDsToSmooth"
          (BoolScalars vertex_ids_to_smooth) "vertices" "blues") ;;
  smoothed1 ← indexed (column 0 smoothed_inpainted_weights) ;
  emit (EAddScalarQuantity "TargetMesh" "SmoothedBone1"
          (FloatScalars smoothed1) "vertices" "blues") ;;
  smoothed2 ← indexed (column 1 smoothed_inpainted_weights) ;
  emit (EAddScalarQuantity "TargetMesh" "SmoothedBone2"
          (FloatScalars smoothed2) "vertices" "blues") ;;
  let output_file_path := path_join current_folder output_file in
  let mesh_data := JDict [ ("vertices", tolist_float vertices_2);
                           ("faces", tolist_int faces_2);
                           ("normals", tolist_float normals_2);
                           ("uvs", tolist_float uvs_2) ] in
  let output_file_path := path_join current_folder output_file in
  emit (EJsonDump output_file_path mesh_data) ;;
  emit EPsShow.

(** The [__main__] block: the command line yields the three names and
    nothing else reaches [main]. *)
Definition script (parse_arguments : py arguments) : py unit :=
  arguments ← parse_arguments ;
  main (source_mesh arguments) (target_mesh arguments)
       (output_file arguments).

End Script.

(** ** Points and vectors in space *)

Module Vec3.

Definition vec3 : Type := float * float * float.

Definition vec_of_row (r : list float) : vec3 :=
  (nth 0 r 0%float, nth 1 r 0%float, nth 2 r 0%float).

Definition row_of_vec (p : vec3) : list float :=
  let '(x, y, z) := p in [x; y; z].

Definition vsub (p q : vec3) : vec3 :=
  let '(a, b, c) := p in let '(x, y, z) := q in (a - x, b - y, c - z)%float.

Definition vadd (p q : vec3) : vec3 :=
  let '(a, b, c) := p in let '(x, y, z) := q in (a + x, b + y, c + z)%float.

Definition cross (p q : vec3) : vec3 :=
  let '(a, b, c) := p in
  let '(x, y, z) := q in
  (b * z - c * y, c * x - a * z, a * y - b * x)%float.

Definition norm2 (p : vec3) : float :=
  let '(a, b, c) := p in (a * a + b * b + c * c)%float.

Definition normalize (p : vec3) : vec3 :=
  let n := PrimFloat.sqrt (norm2 p) in
  let '(a, b, c) := p in (a / n, b / n, c / n)%float.

Definition dot (p q : vec3) : float :=
  let '(a, b, c) := p in let '(x, y, z) := q in (a * x + b * y + c * z)%float.

Definition scale (k : float) (p : vec3) : vec3 :=
  let '(a, b, c) := p in (k * a, k * b, k * c)%float.

End Vec3.
Export Vec3.

(** ** Reference models of the libigl operations

    libigl is an external library.  These definitions follow its documented
    behaviour closely enough to run the script on small meshes; the
    properties of the script below hold for every [Igl] that meets the
    stated contracts, and these models show the contracts can be met. *)

Module Reference.

(** *** [igl.remove_unreferenced]

    libigl marks every vertex some face refers to, numbers the marked
    vertices in order ([I] maps old to new indices, [-1] for a removed
    vertex; [J] lists the old index of each kept vertex), rewrites the
    faces through [I] and keeps the rows of [V] listed in [J].  An entry
    [-1] of a face is skipped by the marking loop; libigl's behaviour on
    other out-of-range entries is undefined, and the model leaves the
    marks unchanged there, keeps a negative entry and rewrites one past
    the last vertex to [-1]. *)

Definition mark_entry (mark : list bool) (a : Z) : list bool :=
  if decide (0 <= a) then <[Z.to_nat a := true]> mark else mark.

Definition mark_referenced (n : nat) (f : list (list Z)) : list bool :=
  foldl (foldl mark_entry) (replicate n false) f.

Fixpoint compact (mark : list bool) (i count : nat) : list Z * list nat :=
  match mark with
  | [] => ([], [])
  | m :: rest =>
      if m
      then let '(old_to_new, kept) := compact rest (S i) (S count) in
           (Z.of_nat count :: old_to_new, i :: kept)
      else let '(old_to_new, kept) := compact rest (S i) count in
           (-1 :: old_to_new, kept)
  end.

Definition reindex (old_to_new : list Z) (a : Z) : Z :=
  if decide (0 <= a) then default (-1) (old_to_new !! Z.to_nat a) else a.

Definition remove_unreferenced (v : ndarray float) (f : ndarray Z)
  : ndarray float * ndarray Z * list Z * list Z :=
  let mark := mark_referenced (shape0 v) (rows f) in
  let '(old_to_new, kept) := compact mark 0 0 in
  let nf := NDArray (ncols f) (map (map (reindex old_to_new)) (rows f)) in
  let nv := NDArray (ncols v) (omap (fun j => rows v !! j) kept) in
  (nv, nf, old_to_new, map Z.of_nat kept).

(** *** [igl.per_vertex_normals] (area weighting) and
    [igl.bounding_box_diagonal] *)

Definition vertex_at (v : ndarray float) (a : Z) : vec3 :=
  vec_of_row (default [] (rows v !! Z.to_nat a)).

(** Twice the area of a triangle times its unit normal. *)
Definition face_normal (v : ndarray float) (face : list Z) : vec3 :=
  match face with
  | [a; b; c] =>
      cross (vsub (vertex_at v b) (vertex_at v a))
            (vsub (vertex_at v c) (vertex_at v a))
  | _ => (0, 0, 0)%float
  end.

Definition per_vertex_normals (v : ndarray float) (f : ndarray Z)
  : ndarray float :=
  NDArray 3
    (map (fun i : nat =>
            row_of_vec
              (normalize
                 (foldl vadd (0, 0, 0)%float
                    (map (face_normal v)
                       (filter (fun face => Z.of_nat i ∈ face) (rows f))))))
       (seq 0 (shape0 v))).

Definition fmin (x y : float) : float := if (x <? y)%float then x else y.
Definition fmax (x y : float) : float := if (x <? y)%float then y else x.

Definition bounding_box_diagonal (v : ndarray float) : float :=
  match map vec_of_row (rows v) with
  | [] => 0%float
  | p :: ps =>
      let lo := foldl (fun '(a, b, c) '(x, y, z) =>
                         (fmin a x, fmin b y, fmin c z)) p ps in
      let hi := foldl (fun '(a, b, c) '(x, y, z) =>
                         (fmax a x, fmax b y, fmax c z)) p ps in
      PrimFloat.sqrt (norm2 (vsub hi lo))
  end.

End Reference.

(** ** A small world to run the script in

    Three OBJ files next to the script: a unit square made of two triangles
    (the source), the same square with one extra vertex no face refers to
    (the target), and the square moved far away along z.  The stand-ins for
    [utilities] are deliberately simple: nearest source vertex with the
    distance gate only, inpainting that copies the first matched row and
    fails when nothing is matched, and a smoother that returns its input. *)

Module Demo.

Definition square_v : list (list float) :=
  [ [0; 0; 0]; [1; 0; 0]; [0; 1; 0]; [1; 1; 0] ]%float.
Definition square_f : list (list Z) := [ [0; 1; 2]; [1; 3; 2] ].
Definition square_vt : list (list float) :=
  [ [0; 0]; [1; 0]; [0; 1]; [1; 1]; [0.5; 0.5] ]%float.

Definition no_floats (k : nat) : ndarray float := NDArray k [].
Definition no_ints (k : nat) : ndarray Z := NDArray k [].

Definition source_obj : obj_data :=
  ObjData (NDArray 3 square_v) (NDArray 2 square_vt) (no_floats 3)
          (NDArray 3 square_f) (no_ints 3) (no_ints 3).

(** Vertex 2 of the file is referred to by no face. *)
Definition target_obj : obj_data :=
  ObjData (NDArray 3 [ [0; 0; 0]; [1; 0; 0]; [9; 9; 9]; [0; 1; 0]; [1; 1; 0] ]%float)
          (NDArray 2 square_vt) (no_floats 3)
          (NDArray 3 [ [0; 1; 3]; [1; 4; 3] ]) (no_ints 3) (no_ints 3).

Definition far_obj : obj_data :=
  ObjData (NDArray 3 [ [0; 0; 50]; [1; 0; 50]; [0; 1; 50]; [1; 1; 50] ]%float)
          (NDArray 2 square_vt) (no_floats 3)
          (NDArray 3 square_f) (no_ints 3) (no_ints 3).

Definition empty_obj : obj_data :=
  ObjData (no_floats 3) (no_floats 2) (no_floats 3)
          (no_ints 3) (no_ints 3) (no_ints 3).

Definition folder : string := "/repo/src".

Definition files (path : string) : obj_data :=
  if String.eqb path "/repo/src/source.obj" then source_obj
  else if String.eqb path "/repo/src/target.obj" then target_obj
  else if String.eqb path "/repo/src/far.obj" then far_obj
  else empty_obj.

Definition igl : Igl := {|
  read_obj := files;
  remove_unreferenced := Reference.remove_unreferenced;
  per_vertex_normals := Reference.per_vertex_normals;
  bounding_box_diagonal := Reference.bounding_box_diagonal
|}.

Definition sqdist (p q : vec3) : float := norm2 (vsub p q).

(** The nearest of the source vertices, with its weights; the first one
    wins a tie. *)
Definition nearest (src : list (vec3 * list float)) (p : vec3)
  : option (float * list float) :=
  foldl (fun best '(q, w) =>
           let d := sqdist p q in
           match best with
           | Some (d0, _) => if (d <? d0)%float then Some (d, w) else best
           | None => Some (d, w)
           end) None src.

Definition demo_find_matches (a : match_args) : list bool * ndarray float :=
  let w := ma_skin_weights a in
  let src := zip (map vec_of_row (rows (ma_vertices_1 a))) (rows w) in
  let hits := map (fun r => nearest src (vec_of_row r))
                  (rows (ma_vertices_2 a)) in
  (map (fun h => match h with
                 | Some (d, _) => (d <=? ma_distance_threshold_squared a)%float
                 | None => false
                 end) hits,
   NDArray (ncols w)
     (map (fun h => match h with
                    | Some (_, r) => r
                    | None => replicate (ncols w) 0%float
                    end) hits)).

Definition demo_inpaint (a : inpaint_args) : ndarray float * bool :=
  let w := ia_weights a in
  let anchors :=
    omap (fun '(m, r) => if m : bool then Some r else None)
         (zip (ia_matched a) (rows w)) in
  match anchors with
  | [] => (w, false)
  | r0 :: _ =>
      (NDArray (ncols w)
         (zip_with (fun (m : bool) r => if m then r else r0)
            (ia_matched a) (rows w)),
       true)
  end.

Definition demo_smooth (a : smooth_args) : ndarray float * list bool :=
  (sa_weights a, map negb (sa_matched a)).

Definition utilities : Utilities := {|
  find_matches_closest_surface := demo_find_matches;
  inpaint := demo_inpaint;
  smooth := demo_smooth
|}.

(** The two runs used below: target next to the source, and far from it. *)
Definition near_run : py unit :=
  main igl utilities folder "source.obj" "target.obj" "out.json".
Definition far_run : py unit :=
  main igl utilities folder "source.obj" "far.obj" "out.json".

(** What [inpaint] receives in the far run: nothing is matched. *)
Definition far_inpaint_args : inpaint_args :=
  InpaintArgs
    (NDArray 3 [ [0; 0; 50]; [1; 0; 50]; [0; 1; 50]; [1; 1; 50] ]%float)
    (NDArray 3 square_f)
    (NDArray 2 [ [0.3; 0.7]; [0.3; 0.7]; [0.3; 0.7]; [0.3; 0.7] ]%float)
    [false; false; false; false].

End Demo.

(** ** Reading a trace *)

Definition match_calls (t : list event) : list match_args :=
  omap (fun e => match e with EFindMatches a => Some a | _ => None end) t.

Definition inpaint_calls (t : list event) : list inpaint_args :=
  omap (fun e => match e with EInpaint a => Some a | _ => None end) t.

Definition smooth_calls (t : list event) : list smooth_args :=
  omap (fun e => match e with ESmooth a => Some a | _ => None end) t.

Definition json_dumps (t : list event) : list (string * json) :=
  omap (fun e => match e with EJsonDump p d => Some (p, d) | _ => None end) t.

Definition printed (t : list event) : list string :=
  omap (fun e => match e with EPrint m => Some m | _ => None end) t.

(** The calls into the transfer pipeline, in the order they were made. *)
Definition is_core_call (e : event) : bool :=
  match e with
  | EFindMatches _ | EInpaint _ | ESmooth _ => true
  | _ => false
  end.

Definition core_calls (t : list event) : list event :=
  List.filter is_core_call t.

(** ** Mesh invariants and the contracts of libigl *)

(** Every face index is within bounds of the vertex sequence. *)
Definition faces_in_bounds (v : ndarray float) (f : ndarray Z) : Prop :=
  Forall (Forall (fun a : Z => 0 <= a < Z.of_nat (shape0 v))) (rows f).

(** Every vertex is referred to by some face. *)
Definition fully_referenced (v : ndarray float) (f : ndarray Z) : Prop :=
  Forall (fun i : nat => Exists (fun face : list Z => Z.of_nat i ∈ face) (rows f))
         (seq 0 (shape0 v)).

Definition clean_mesh (v : ndarray float) (f : ndarray Z) : Prop :=
  faces_in_bounds v f /\ fully_referenced v f.

#[export] Instance faces_in_bounds_dec v f : Decision (faces_in_bounds v f).
Proof. unfold faces_in_bounds. apply _. Defined.

#[export] Instance fully_referenced_dec v f : Decision (fully_referenced v f).
Proof. unfold fully_referenced. apply _. Defined.

#[export] Instance clean_mesh_dec v f : Decision (clean_mesh v f).
Proof. unfold clean_mesh. apply _. Defined.

#[export] Instance rectangular_dec {A} (a : ndarray A) : Decision (rectangular a).
Proof. unfold rectangular. apply _. Defined.

(** The vertices and faces [igl.remove_unreferenced] keeps (its first two
    results). *)
Definition cleaned (igl : Igl) (o : obj_data) : ndarray float * ndarray Z :=
  let '(v, f, _, _) := remove_unreferenced igl (obj_v o) (obj_f o) in (v, f).

(** Contract of [igl.remove_unreferenced]: on a mesh whose faces index
    existing vertices, the result has its faces in bounds and no vertex left
    unreferenced. *)
Definition remove_unreferenced_contract (igl : Igl) : Prop :=
  forall v f, faces_in_bounds v f ->
    let '(nv, nf, _, _) := remove_unreferenced igl v f in clean_mesh nv nf.

(** Contract of [igl.per_vertex_normals]: one normal per vertex. *)
Definition per_vertex_normals_contract (igl : Igl) : Prop :=
  forall v f, shape0 (per_vertex_normals igl v f) = shape0 v.

Definition warning_message : string :=
  "[Warning] Mesh has unreferenced vertices which were removed".

Definition error_message : string := "[Error] Inpainting failed.".

(** ** The Matcher (closest-point correspondence)

    [utilities.py] is not among the sources; this module follows section
    4.1 of the specification. *)

Module Matcher.

(** Nearest point found for one query. *)
Record correspondence : Type := Correspondence {
  c_point : vec3;
  c_bary : float * float * float;
  c_triangle : nat;
  c_sqdist : float;
  c_normal : vec3
}.

(** [b0 * x + b1 * y + b2 * z] *)
Definition bary_combine (b : float * float * float) (x y z : vec3) : vec3 :=
  let '(b0, b1, b2) := b in
  vadd (vadd (scale b0 x) (scale b1 y)) (scale b2 z).

Definition bary_weights (b : float * float * float) (x y z : list float)
  : list float :=
  let '(b0, b1, b2) := b in
  zip_with PrimFloat.add
    (zip_with PrimFloat.add (map (PrimFloat.mul b0) x) (map (PrimFloat.mul b1) y))
    (map (PrimFloat.mul b2) z).

Definition clamp (x lo hi : float) : float :=
  if (x <? lo)%float then lo else if (hi <? x)%float then hi else x.

(** Modelled from the spec: the validity test of
    [find_matches_closest_surface] (its code is missing), "matched iff
    [d² ≤ squaredDistanceThreshold AND θ ≤ angleThresholdDegrees]". *)
Definition gate (d2 theta squaredDistanceThreshold angleThresholdDegrees : float)
  : bool :=
  (d2 <=? squaredDistanceThreshold)%float
  && (theta <=? angleThresholdDegrees)%float.

Section Model.

(** Clamped barycentric projection of a point onto a triangle: the
    barycentric coordinates of the triangle's point closest to [p]. *)
Variable project : vec3 -> vec3 -> vec3 -> vec3 -> float * float * float.

(** Arc cosine, in degrees. *)
Variable arccos_degrees : float -> float.

Variables (sourceVertices : list (list float)) (sourceFaces : list (list Z)).
Variable sourceNormals : list (list float).
Variable sourceWeights : ndarray float.

Definition corner {A} (l : list A) (a : Z) : option A :=
  if decide (0 <= a) then l !! Z.to_nat a else None.

(** The closest point of source triangle number [t] to [p]. *)
Definition on_triangle (p : vec3) (t : nat) (face : list Z)
  : option correspondence :=
  match face with
  | [ia; ib; ic] =>
      a ← corner sourceVertices ia ;
      b ← corner sourceVertices ib ;
      c ← corner sourceVertices ic ;
      na ← corner sourceNormals ia ;
      nb ← corner sourceNormals ib ;
      nc ← corner sourceNormals ic ;
      let bary := project p (vec_of_row a) (vec_of_row b) (vec_of_row c) in
      let q := bary_combine bary (vec_of_row a) (vec_of_row b) (vec_of_row c) in
      Some {| c_point := q;
              c_bary := bary;
              c_triangle := t;
              c_sqdist := norm2 (vsub p q);
              c_normal := bary_combine bary (vec_of_row na) (vec_of_row nb)
                            (vec_of_row nc) |}
  | _ => None
  end.

(** Linear scan over all source triangles; a later triangle replaces the
    best one only when it is strictly closer, so the first one met wins
    a tie. *)
Definition closer (best : option correspondence) (cand : option correspondence)
  : option correspondence :=
  match best, cand with
  | Some b, Some c => if (c_sqdist c <? c_sqdist b)%float then cand else best
  | None, _ => cand
  | _, None => best
  end.

Definition closest_point (p : vec3) : option correspondence :=
  foldl closer None (imap (on_triangle p) sourceFaces).

(** [d²] and [θ] of a target vertex.  With no source triangle there is
    no closest point: the distance is infinite and the angle is not a
    number, so the vertex cannot be matched. *)
Definition squared_distance (p : vec3) : float :=
  match closest_point p with
  | Some c => c_sqdist c
  | None => infinity
  end.

Definition normal_angle (p n : vec3) : float :=
  match closest_point p with
  | Some c => arccos_degrees (clamp (dot n (c_normal c)) (-1) 1)
  | None => nan
  end.

Definition interpolated_weights (c : correspondence) : option (list float) :=
  match sourceFaces !! c_triangle c with
  | Some [ia; ib; ic] =>
      wa ← corner (rows sourceWeights) ia ;
      wb ← corner (rows sourceWeights) ib ;
      wc ← corner (rows sourceWeights) ic ;
      Some (bary_weights (c_bary c) wa wb wc)
  | _ => None
  end.

(** A row nobody may read: the weights of an unmatched vertex. *)
Definition undefined_weights : list float :=
  replicate (ncols sourceWeights) 0%float.

Definition match_vertex (squaredDistanceThreshold angleThresholdDegrees : float)
    (p n : list float) : bool * list float :=
  let d2 := squared_distance (vec_of_row p) in
  let theta := normal_angle (vec_of_row p) (vec_of_row n) in
  if gate d2 theta squaredDistanceThreshold angleThresholdDegrees
  then (true,
        default undefined_weights
          (closest_point (vec_of_row p) ≫= interpolated_weights))
  else (false, undefined_weights).

(** Modelled from the spec: [find_matches_closest_surface] of
    [utilities.py] (its code is missing), under the spec's contract
    [match(sourceMesh, sourceNormals, sourceWeights, targetMesh,
    targetNormals, squaredDistanceThreshold, angleThresholdDegrees)
    → (matchedFlags, weightField)]. *)
Definition match_ (targetVertices targetNormals : list (list float))
    (squaredDistanceThreshold angleThresholdDegrees : float)
  : list bool * ndarray float :=
  let per_vertex :=
    zip_with (match_vertex squaredDistanceThreshold angleThresholdDegrees)
      targetVertices targetNormals in
  (map fst per_vertex, NDArray (ncols sourceWeights) (map snd per_vertex)).

End Model.

(** Stand-ins to run the model: the nearest corner of the triangle in
    place of the projection, and a piecewise-linear arc cosine. *)
Definition nearest_corner (p a b c : vec3) : float * float * float :=
  let da := norm2 (vsub p a) in
  let db := norm2 (vsub p b) in
  let dc := norm2 (vsub p c) in
  if (da <=? db)%float && (da <=? dc)%float then (1, 0, 0)%float
  else if (db <=? dc)%float then (0, 1, 0)%float
  else (0, 0, 1)%float.

Definition rough_arccos_degrees (x : float) : float := (90 * (1 - x))%float.

Definition square_vertices : list (list float) :=
  [ [0; 0; 0]; [1; 0; 0]; [0; 1; 0]; [1; 1; 0] ]%float.
Definition square_faces : list (list Z) := [ [0; 1; 2]; [1; 3; 2] ].
Definition square_normals : list (list float) :=
  [ [0; 0; 1]; [0; 0; 1]; [0; 0; 1]; [0; 0; 1] ]%float.
Definition square_weights : ndarray float :=
  NDArray 2 [ [0.3; 0.7]; [0.3; 0.7]; [0.3; 0.7]; [0.3; 0.7] ]%float.

(** Three target vertices: on the source, too far from it, and on it but
    facing the other way. *)
Definition probe_vertices : list (list float) :=
  [ [1; 1; 0]; [1; 1; 5]; [0; 1; 0] ]%float.
Definition probe_normals : list (list float) :=
  [ [0; 0; 1]; [0; 0; 1]; [0; 0; -1] ]%float.

Definition probe_match : list bool * ndarray float :=
  match_ nearest_corner rough_arccos_degrees square_vertices square_faces
    square_normals square_weights probe_vertices probe_normals 0.01 30.

End Matcher.

(** ** The Inpainter (weight diffusion)

    [utilities.py] is not among the sources; this module follows section
    4.2 of the specification: one row per target vertex, a Dirichlet row
    for a matched vertex and a graph-Laplacian row for an unmatched one,
    solved iteratively within a budget, with the two failure conditions
    reported through the success flag. *)

Module Inpainter.

Definition finite (x : float) : bool := PrimFloat.is_finite x.

(** The vertices sharing a face with [v], each once. *)
Definition neighbours (faces : list (list Z)) (v : nat) : list nat :=
  remove_dups
    (filter (fun u => u <> v)
       (map Z.to_nat (concat (filter (fun face => Z.of_nat v ∈ face) faces)))).

(** One round of flood fill: a vertex is reached when a neighbour is. *)
Definition grow (faces : list (list Z)) (reached : list bool) : list bool :=
  imap (fun v r =>
          r || existsb (fun u => default false (reached !! u))
                 (neighbours faces v))
       reached.

(** Every connected component holds a matched vertex: flooding from the
    matched vertices reaches every vertex. *)
Definition anchored (faces : list (list Z)) (matched : list bool) : bool :=
  forallb id (Nat.iter (length matched) (grow faces) matched).

Definition row_add (r s : list float) : list float :=
  zip_with PrimFloat.add r s.

(** The mean of rows of [k] values. *)
Definition mean (k : nat) (rs : list (list float)) : list float :=
  let count := foldl (fun c _ => (c + 1)%float) 0%float rs in
  map (fun s => (s / count)%float) (foldl row_add (replicate k 0%float) rs).

Section Solve.

Variable faces : list (list Z).
Variable matched : list bool.
Variable tolerance : float.

Definition is_matched (v : nat) : bool := default false (matched !! v).

(** One Jacobi sweep of the system: the row of a matched vertex is the
    Dirichlet constraint (its value stays), the row of an unmatched one
    is the uniform graph Laplacian (its value becomes the mean of its
    neighbours' previous values). *)
Definition sweep (x : list (list float)) : list (list float) :=
  imap (fun v r =>
          if is_matched v then r
          else mean (length r) (omap (fun u => x !! u) (neighbours faces v)))
       x.

Definition close_enough (r r' : list float) : bool :=
  forallb (fun '(a, b) => (abs (b - a) <=? tolerance)%float) (zip r r').

(** The sweep changed no unmatched value by more than the tolerance. *)
Definition converged (x x' : list (list float)) : bool :=
  forallb (fun '(v, (r, r')) => is_matched v || close_enough r r')
          (zip (seq 0 (length x)) (zip x x')).

(** Iterate within the budget; [None] when the budget runs out. *)
Fixpoint iterate (budget : nat) (x : list (list float))
  : option (list (list float)) :=
  match budget with
  | O => None
  | S budget' =>
      let x' := sweep x in
      if converged x x' then Some x' else iterate budget' x'
  end.

(** Start of the solve: provisional values at matched vertices, zero
    elsewhere (the provisional value of an unmatched vertex is never
    read). *)
Definition initial (provisionalWeights : list (list float))
  : list (list float) :=
  imap (fun v r => if is_matched v then r else replicate (length r) 0%float)
       provisionalWeights.

End Solve.

(** Modelled from the spec: [inpaint] of [utilities.py] (its code is
    missing), under the spec's contract [inpaint(targetMesh,
    provisionalWeights, matchedFlags) → (filledWeights, success)], with
    the solver's iteration budget and tolerance made explicit. *)
Definition inpaint (budget : nat) (tolerance : float)
    (targetFaces : list (list Z)) (provisionalWeights : ndarray float)
    (matchedFlags : list bool) : ndarray float * bool :=
  if negb (anchored targetFaces matchedFlags) then (provisionalWeights, false)
  else
    match iterate targetFaces matchedFlags tolerance budget
            (initial matchedFlags (rows provisionalWeights)) with
    | Some x => (NDArray (ncols provisionalWeights) x, true)
    | None => (provisionalWeights, false)
    end.

(** A strip of four triangles over six vertices; the two left vertices are
    matched. *)
Definition strip_faces : list (list Z) :=
  [ [0; 1; 2]; [1; 3; 2]; [2; 3; 4]; [3; 5; 4] ].
Definition strip_matched : list bool :=
  [ true; true; false; false; false; false ].
Definition strip_weights : ndarray float :=
  NDArray 2 [ [0.3; 0.7]; [0.3; 0.7]; [5; 5]; [5; 5]; [5; 5]; [5; 5] ]%float.
Definition strip_filled : ndarray float :=
  Eval vm_compute in
    fst (inpaint 200 0.000001 strip_faces strip_weights strip_matched).

End Inpainter.

(** ** More readings of a trace *)


(** Polyscope's registry discipline: [ps.get_surface_mesh(name)] finds only
    a mesh registered before.  [known] lists the meshes registered so far;
    the result tells whether every quantity of [t] is added to a known
    mesh. *)
Fixpoint quantities_on_registered (known : list string) (t : list event)
  : bool :=
  match t with
  | [] => true
  | ERegisterSurfaceMesh name _ _ _ :: rest =>
      quantities_on_registered (name :: known) rest
  | EAddVectorQuantity mesh _ _ _ _ :: rest
  | EAddScalarQuantity mesh _ _ _ _ :: rest =>
      bool_decide (mesh ∈ known) && quantities_on_registered known rest
  | _ :: rest => quantities_on_registered known rest
  end.

(** How often the viewer is opened. *)
Definition shows (t : list event) : nat :=
  length (List.filter (fun e => match e with EPsShow => true | _ => false end) t).


(** A second contract of [igl.remove_unreferenced]: on a mesh whose faces
    index existing vertices, the number of vertices stays the same exactly
    when no vertex was unreferenced. *)
Definition remove_unreferenced_count_contract (igl : Igl) : Prop :=
  forall v f, faces_in_bounds v f ->
    let '(nv, _, _, _) := remove_unreferenced igl v f in
    shape0 nv = shape0 v <-> fully_referenced v f.

(** ** Collaborators that answer with too few columns *)

Module Edge.

(** An [inpaint] that reports success and returns one column only. *)
Definition narrow_inpaint (a : inpaint_args) : ndarray float * bool :=
  (NDArray 1 (map (take 1) (rows (ia_weights a))), true).

(** A [smooth] that returns one column only. *)
Definition narrow_smooth (a : smooth_args) : ndarray float * list bool :=
  (NDArray 1 (map (take 1) (rows (sa_weights a))), map negb (sa_matched a)).

Definition narrow_inpaint_utilities : Utilities := {|
  find_matches_closest_surface := Demo.demo_find_matches;
  inpaint := narrow_inpaint;
  smooth := Demo.demo_smooth
|}.

Definition narrow_smooth_utilities : Utilities := {|
  find_matches_closest_surface := Demo.demo_find_matches;
  inpaint := Demo.demo_inpaint;
  smooth := narrow_smooth
|}.

Definition narrow_inpaint_run : py unit :=
  main Demo.igl narrow_inpaint_utilities Demo.folder
    "source.obj" "target.obj" "out.json".

Definition narrow_smooth_run : py unit :=
  main Demo.igl narrow_smooth_utilities Demo.folder
    "source.obj" "target.obj" "out.json".

(** What [inpaint] receives in these runs (and in the near run): every
    vertex of the square is matched. *)
Definition near_inpaint_args : inpaint_args :=
  InpaintArgs
    (NDArray 3 Demo.square_v) (NDArray 3 Demo.square_f)
    (NDArray 2 [ [0.3; 0.7]; [0.3; 0.7]; [0.3; 0.7]; [0.3; 0.7] ]%float)
    [true; true; true; true].

End Edge.

(** ** Proof tools *)

(** Symbolic execution of the script: unfold the monad, then split on every
    answer of a collaborator and on every test the script makes. *)
Ltac py_unfold :=
  unfold main, load_mesh, cleaned, mbind, py_mbind, mret, py_mret, py_bind,
    py_ret, emit, print, exit, indexed, set_column, ones, copy, shape0,
    result, trace;
  cbn.

Ltac py_step :=
  match goal with
  | |- context [match ?x with _ => _ end] =>
      lazymatch x with
      | context [match _ with _ => _ end] => fail
      | negb ?b => destruct b; cbn
      | _ => destruct x eqn:?; cbn
      end
  end.

Ltac py_run := py_unfold; repeat py_step.

(** Replays what a run recorded about the answers of the collaborators. *)
Ltac recall :=
  repeat match goal with
         | H : find_matches_closest_surface _ _ = _ |- _ =>
             rewrite H in *; clear H; cbn in *
         | H : inpaint _ _ = _ |- _ => rewrite H in *; clear H; cbn in *
         | H : smooth _ _ = _ |- _ => rewrite H in *; clear H; cbn in *
         | H : column _ _ = _ |- _ => rewrite H in *; clear H; cbn in *
         end.

(** The same for the calls into [utilities] only; what the run recorded
    about columns stays among the hypotheses. *)
Ltac recall_calls :=
  repeat match goal with
         | H : find_matches_closest_surface _ _ = _ |- _ =>
             rewrite H in *; clear H; cbn in *
         | H : inpaint _ _ = _ |- _ => rewrite H in *; clear H; cbn in *
         | H : smooth _ _ = _ |- _ => rewrite H in *; clear H; cbn in *
         end.

(** [l = ?before ++ suffix] for a list [l] whose spine is known. *)
Ltac split_before :=
  match goal with
  | |- exists before, ?l = before ++ ?s =>
      exists (take (length l - length s) l); reflexivity
  end.

(** [l = ?before ++ EFindMatches ?ma :: ?after]: the matcher is called after
    seven to nine events, depending on the warnings printed. *)
Ltac split_at_match :=
  do 3 eexists; split;
  [ match goal with
    | |- ?l = ?before ++ _ :: ?after =>
        first [ unify before (take 7 l); unify after (drop 8 l); reflexivity
              | unify before (take 8 l); unify after (drop 9 l); reflexivity
              | unify before (take 9 l); unify after (drop 10 l); reflexivity ]
    end
  | ].

(** ** Running the models *)

Example path_join_relative : path_join "/repo/src" "out.json" = "/repo/src/out.json".
Proof. reflexivity. Qed.

Example path_join_absolute : path_join "/repo/src" "/tmp/out.json" = "/tmp/out.json".
Proof. reflexivity. Qed.

Example path_join_trailing_sep : path_join "/repo/" "a.obj" = "/repo/a.obj".
Proof. reflexivity. Qed.

Example column_out_of_range : column 2 (ones 3 2) = None.
Proof. reflexivity. Qed.

Example column_of_empty_array : column 1 (ones 0 2) = Some [].
Proof. reflexivity. Qed.

(** Vertex 2 of the target file is dropped and the faces are renumbered. *)
Example remove_unreferenced_target :
  Reference.remove_unreferenced (obj_v Demo.target_obj) (obj_f Demo.target_obj)
  = (NDArray 3 Demo.square_v, NDArray 3 Demo.square_f,
     [0; 1; -1; 2; 3], [0; 1; 3; 4]).
Proof. vm_compute. reflexivity. Qed.

Example near_run_ends : result Demo.near_run = Done tt.
Proof. vm_compute. reflexivity. Qed.

Example near_run_prints :
  printed (trace Demo.near_run) = [warning_message].
Proof. vm_compute. reflexivity. Qed.

Example far_run_exits : result Demo.far_run = Exit 0.
Proof. vm_compute. reflexivity. Qed.

Example far_run_prints : printed (trace Demo.far_run) = [error_message].
Proof. vm_compute. reflexivity. Qed.

(** A missing file reads as an empty mesh: nothing is matched, the stand-in
    for [inpaint] reports failure and the script exits. *)
Example missing_target_run :
  result (main Demo.igl Demo.utilities Demo.folder "source.obj" "none.obj"
            "out.json")
  = Exit 0.
Proof. vm_compute. reflexivity. Qed.

Example probe_flags : fst Matcher.probe_match = [true; false; false].
Proof. vm_compute. reflexivity. Qed.

(** The two failure conditions of the Inpainter: a budget too small, and a
    component (vertices 6 to 8) without a matched vertex. *)
Example inpaint_budget_exhausted :
  snd (Inpainter.inpaint 2 0.000001 Inpainter.strip_faces
         Inpainter.strip_weights Inpainter.strip_matched) = false.
Proof. vm_compute. reflexivity. Qed.

Example inpaint_unanchored_component :
  snd (Inpainter.inpaint 200 0.000001
         ([6; 7; 8] :: Inpainter.strip_faces)
         (NDArray 2 (rows Inpainter.strip_weights
                     ++ [ [1; 1]; [1; 1]; [1; 1] ]%float))
         (Inpainter.strip_matched ++ [false; false; false])) = false.
Proof. vm_compute. reflexivity. Qed.

(** ** Facts about binary64 comparisons *)

Module FloatFacts.

Lemma SFcompare_Lt_swap x y :
  SFcompare x y = Some Lt -> SFcompare y x = Some Gt.
Proof.
  destruct x as [sx | sx | | sx mx ex], y as [sy | sy | | sy my ey]; simpl;
    try destruct sx; try destruct sy; try congruence.
  all: assert (H : Pos.compare_cont Eq my mx
                   = CompOpp (Pos.compare_cont Eq mx my))
      by (rewrite Pos.compare_cont_antisym; reflexivity).
  all: rewrite (Z.compare_antisym ex ey).
  all: destruct (ex ?= ey) eqn:E; simpl; try congruence.
  all: change (PosDef.Pos.compare_cont Eq my mx)
         with (Pos.compare_cont Eq my mx);
       change (PosDef.Pos.compare_cont Eq mx my)
         with (Pos.compare_cont Eq mx my).
  all: rewrite H; destruct (Pos.compare_cont Eq mx my); simpl; congruence.
Qed.

(** [x < y] excludes [y <= x]. *)
Lemma ltb_not_leb (x y : float) :
  (x <? y)%float = true -> (y <=? x)%float = false.
Proof.
  rewrite FloatAxioms.ltb_spec, FloatAxioms.leb_spec. unfold SFltb, SFleb.
  destruct (SFcompare (Prim2SF x) (Prim2SF y)) as [[]|] eqn:E;
    try discriminate.
  intros _. by rewrite (SFcompare_Lt_swap _ _ E).
Qed.

Lemma eqb_leb (x y : float) :
  (x =? y)%float = true -> (x <=? y)%float = true.
Proof.
  rewrite FloatAxioms.eqb_spec, FloatAxioms.leb_spec. unfold SFeqb, SFleb.
  by destruct (SFcompare (Prim2SF x) (Prim2SF y)) as [[]|].
Qed.

(** A number that is not NaN is [<=] itself. *)
Lemma leb_refl (x : float) :
  PrimFloat.is_nan x = false -> (x <=? x)%float = true.
Proof.
  unfold PrimFloat.is_nan. intros H. apply eqb_leb.
  by destruct (x =? x)%float.
Qed.

Lemma is_finite_spec (x : float) :
  PrimFloat.is_finite x
  = match Prim2SF x with
    | S754_zero _ | S754_finite _ _ _ => true
    | _ => false
    end.
Proof.
  unfold is_finite, is_nan, is_infinity.
  rewrite !FloatAxioms.eqb_spec, FloatAxioms.abs_spec.
  change (Prim2SF infinity) with (S754_infinity false).
  destruct (Prim2SF x) as [s | s | | s m e]; unfold SFeqb; simpl;
    try reflexivity; try (by destruct s).
  rewrite Z.compare_refl.
  change (PosDef.Pos.compare_cont Eq m m) with (Pos.compare m m).
  rewrite Pos.compare_refl. by destruct s.
Qed.

(** A value within a finite tolerance of anything is finite: an infinite
    or NaN [b] makes [b - a] infinite or NaN, which is not below a finite
    bound. *)
Lemma close_finite (a b tol : float) :
  PrimFloat.is_finite tol = true ->
  (abs (b - a) <=? tol)%float = true ->
  PrimFloat.is_finite b = true.
Proof.
  rewrite !is_finite_spec, FloatAxioms.leb_spec, FloatAxioms.abs_spec,
    FloatAxioms.sub_spec.
  unfold SF64sub.
  destruct (Prim2SF b) as [sb | sb | | sb mb eb]; simpl; try done.
  destruct (Prim2SF a) as [sa | sa | | sa ma ea],
           (Prim2SF tol) as [st | st | | st mt et];
    simpl; try done; destruct sb; try destruct sa; simpl; done.
Qed.

End FloatFacts.

(** ** The reference models meet the contracts of libigl *)

Module ReferenceFacts.
Import Reference.

Lemma mark_entry_length mark a : length (mark_entry mark a) = length mark.
Proof.
  unfold mark_entry. case_decide; [apply length_insert | reflexivity].
Qed.

Lemma mark_entry_lookup mark a (i : nat) :
  (i < length mark)%nat ->
  mark_entry mark a !! i = Some true
  <-> mark !! i = Some true \/ a = Z.of_nat i.
Proof.
  intros Hi. unfold mark_entry. case_decide as Ha.
  - destruct (decide (Z.to_nat a = i)) as [<- | Hne].
    + rewrite list_lookup_insert_eq by done.
      split; [intros _; right; lia | done].
    + rewrite list_lookup_insert_ne by done.
      split; [tauto | intros [? | ->]; [done | lia]].
  - split; [tauto | intros [? | ->]; [done | lia]].
Qed.

Lemma mark_face_length face :
  forall mark, length (foldl mark_entry mark face) = length mark.
Proof.
  induction face as [| a face IH]; intros mark; simpl; [done |].
  rewrite IH. apply mark_entry_length.
Qed.

Lemma mark_face_lookup face (i : nat) : forall mark,
  (i < length mark)%nat ->
  foldl mark_entry mark face !! i = Some true
  <-> mark !! i = Some true \/ Z.of_nat i ∈ face.
Proof.
  induction face as [| a face IH]; intros mark Hi; simpl.
  - rewrite elem_of_nil. tauto.
  - rewrite IH by (rewrite mark_entry_length; done).
    rewrite mark_entry_lookup by done. rewrite elem_of_cons.
    intuition congruence.
Qed.

Lemma mark_faces_length f :
  forall mark, length (foldl (foldl mark_entry) mark f) = length mark.
Proof.
  induction f as [| face f IH]; intros mark; simpl; [done |].
  rewrite IH. apply mark_face_length.
Qed.

Lemma mark_faces_lookup f (i : nat) : forall mark,
  (i < length mark)%nat ->
  foldl (foldl mark_entry) mark f !! i = Some true
  <-> mark !! i = Some true \/ exists face, face ∈ f /\ Z.of_nat i ∈ face.
Proof.
  induction f as [| face f IH]; intros mark Hi; simpl.
  - split; [tauto |].
    intros [? | (face & Hin & _)]; [done | by apply elem_of_nil in Hin].
  - rewrite IH by (rewrite mark_face_length; done).
    rewrite mark_face_lookup by done. split.
    + intros [[? | ?] | (face' & ? & ?)];
        [by left | right; exists face | right; exists face'];
        split; try done; [left | by right].
    + intros [? | (face' & Hin & ?)]; [by left; left |].
      apply elem_of_cons in Hin as [-> | ?];
        [left; by right | right; by exists face'].
Qed.

Lemma mark_referenced_length n f : length (mark_referenced n f) = n.
Proof.
  unfold mark_referenced. rewrite mark_faces_length. apply length_replicate.
Qed.

(** A vertex is marked exactly when some face refers to it. *)
Lemma mark_referenced_lookup n f (i : nat) :
  (i < n)%nat ->
  mark_referenced n f !! i = Some true
  <-> exists face, face ∈ f /\ Z.of_nat i ∈ face.
Proof.
  intros Hi. unfold mark_referenced.
  rewrite mark_faces_lookup by (rewrite length_replicate; done).
  rewrite lookup_replicate. split; [intros [[? _] | ?]; done | by right].
Qed.

(** The renumbering: a marked vertex [k] gets a new index [m], and the
    [m]-th kept vertex is [k]; conversely every kept vertex is marked. *)
Lemma compact_spec mark : forall (i count : nat) old_to_new kept,
  compact mark i count = (old_to_new, kept) ->
  (forall k : nat, mark !! k = Some true ->
     exists m : nat, old_to_new !! k = Some (Z.of_nat (count + m))
                     /\ kept !! m = Some (i + k)%nat)
  /\ (forall (m j : nat), kept !! m = Some j ->
        exists k : nat, j = (i + k)%nat /\ mark !! k = Some true
                        /\ old_to_new !! k = Some (Z.of_nat (count + m))).
Proof.
  induction mark as [| b mark IH]; intros i count old_to_new kept; simpl.
  - intros [= <- <-]. split; [intros k Hk | intros m j Hm]; done.
  - destruct b.
    + destruct (compact mark (S i) (S count)) as [o' k'] eqn:E.
      intros [= <- <-]. destruct (IH _ _ _ _ E) as [H1 H2]. split.
      * intros [| k] Hk; simpl in *.
        -- exists 0%nat. split; simpl; f_equal; lia.
        -- destruct (H1 k Hk) as (m & Ho & Hm). exists (S m). simpl.
           split; [rewrite Ho | rewrite Hm]; f_equal; lia.
      * intros [| m] j Hm; simpl in *.
        -- injection Hm as <-. exists 0%nat. simpl.
           repeat split; f_equal; lia.
        -- destruct (H2 m j Hm) as (k & -> & Hk & Ho). exists (S k). simpl.
           repeat split; [lia | done | rewrite Ho; f_equal; lia].
    + destruct (compact mark (S i) count) as [o' k'] eqn:E.
      intros [= <- <-]. destruct (IH _ _ _ _ E) as [H1 H2]. split.
      * intros [| k] Hk; simpl in *; [done |].
        destruct (H1 k Hk) as (m & Ho & Hm). exists m. split; [done |].
        rewrite Hm. f_equal; lia.
      * intros m j Hm. destruct (H2 m j Hm) as (k & -> & Hk & Ho).
        exists (S k). simpl. repeat split; [lia | done | done].
Qed.

Lemma length_omap_total {A B} (g : A -> option B) (l : list A) :
  Forall (fun x => is_Some (g x)) l -> length (omap g l) = length l.
Proof.
  induction 1 as [| x l [y Hy] _ IH]; simpl; [done |].
  rewrite Hy. simpl. f_equal. exact IH.
Qed.

(** The model of [igl.remove_unreferenced] returns a clean mesh whenever
    the faces it is given index existing vertices. *)
Lemma remove_unreferenced_clean v f :
  faces_in_bounds v f ->
  let '(nv, nf, _, _) := Reference.remove_unreferenced v f in
  clean_mesh nv nf.
Proof.
  intros Hb. unfold Reference.remove_unreferenced.
  destruct (compact (mark_referenced (shape0 v) (rows f)) 0 0)
    as [o kept] eqn:E.
  destruct (compact_spec _ _ _ _ _ E) as [H1 H2].
  assert (Hlen : length (omap (fun j : nat => rows v !! j) kept)
                 = length kept).
  { apply length_omap_total, Forall_lookup. intros m j Hm.
    destruct (H2 m j Hm) as (k & -> & Hk & _).
    apply lookup_lt_Some in Hk. rewrite mark_referenced_length in Hk.
    apply lookup_lt_is_Some. simpl. exact Hk. }
  assert (Hmark : forall face a, face ∈ rows f -> a ∈ face ->
            0 <= a
            /\ mark_referenced (shape0 v) (rows f) !! Z.to_nat a = Some true).
  { intros face a Hface Ha.
    unfold faces_in_bounds in Hb. rewrite Forall_forall in Hb.
    specialize (Hb face Hface). rewrite Forall_forall in Hb.
    specialize (Hb a Ha). split; [lia |].
    apply mark_referenced_lookup; [lia |].
    exists face. split; [done |]. by rewrite Z2Nat.id by lia. }
  split.
  - unfold faces_in_bounds, shape0. simpl. rewrite Hlen.
    apply Forall_forall. intros face' Hface'.
    apply list_elem_of_fmap in Hface' as (face & -> & Hface).
    apply Forall_forall. intros a' Ha'.
    apply list_elem_of_fmap in Ha' as (a & -> & Ha).
    destruct (Hmark face a Hface Ha) as [Hpos Hm].
    destruct (H1 _ Hm) as (m & Ho & Hk).
    unfold reindex. rewrite decide_True by done. rewrite Ho. simpl.
    apply lookup_lt_Some in Hk. lia.
  - unfold fully_referenced, shape0. simpl. rewrite Hlen.
    apply Forall_forall. intros m Hm. apply elem_of_seq in Hm.
    destruct (lookup_lt_is_Some_2 kept m) as [j Hj]; [lia |].
    destruct (H2 m j Hj) as (k & -> & Hk & Ho).
    pose proof (lookup_lt_Some _ _ _ Hk) as Hlt.
    rewrite mark_referenced_length in Hlt.
    apply mark_referenced_lookup in Hk as (face & Hface & Hin); [| done].
    apply Exists_exists. exists (map (reindex o) face). split.
    + apply list_elem_of_fmap. by exists face.
    + apply list_elem_of_fmap. exists (Z.of_nat k). split; [| done].
      unfold reindex. rewrite decide_True by lia.
      rewrite Nat2Z.id, Ho. simpl. lia.
Qed.

Lemma per_vertex_normals_rows v f :
  shape0 (Reference.per_vertex_normals v f) = shape0 v.
Proof.
  unfold Reference.per_vertex_normals, shape0. simpl.
  by rewrite length_map, length_seq.
Qed.

End ReferenceFacts.

(** The libigl of the small world meets both contracts. *)
Lemma demo_remove_unreferenced_contract : remove_unreferenced_contract Demo.igl.
Proof. intros v f Hb. by apply ReferenceFacts.remove_unreferenced_clean. Qed.

Lemma demo_per_vertex_normals_contract : per_vertex_normals_contract Demo.igl.
Proof. intros v f. apply ReferenceFacts.per_vertex_normals_rows. Qed.

(** ** Properties of [load_mesh] *)

(** What a call of [load_mesh] returns and does. *)
Lemma load_mesh_run igl mesh_path :
  load_mesh igl mesh_path =
    (let o := read_obj igl mesh_path in
     let '(v, f) := cleaned igl o in
     (Done (v, f, per_vertex_normals igl v f, obj_vt o),
      EReadObj mesh_path ::
        (if decide (shape0 (obj_v o) = shape0 v) then []
         else [EPrint warning_message]))).
Proof. py_run; reflexivity. Qed.

Lemma cleaned_is_clean igl o :
  remove_unreferenced_contract igl ->
  faces_in_bounds (obj_v o) (obj_f o) ->
  clean_mesh (cleaned igl o).1 (cleaned igl o).2.
Proof.
  intros Hc Hb. specialize (Hc _ _ Hb). unfold cleaned.
  by destruct (remove_unreferenced igl (obj_v o) (obj_f o)) as [[[v f] ?] ?].
Qed.

(** C7: [load_mesh] computes the normals after the removal of unreferenced
    vertices, from the cleaned vertices and faces, and (libigl returning one
    normal per vertex) the normals array has as many rows as the returned
    vertex array. *)
Theorem load_mesh_normals_of_cleaned_mesh igl mesh_path :
  per_vertex_normals_contract igl ->
  let o := read_obj igl mesh_path in
  let v := (cleaned igl o).1 in
  let f := (cleaned igl o).2 in
  exists uvs,
    result (load_mesh igl mesh_path)
    = Done (v, f, per_vertex_normals igl v f, uvs)
    /\ shape0 (per_vertex_normals igl v f) = shape0 v.
Proof.
  intros Hn. cbv zeta. rewrite load_mesh_run. cbv zeta.
  destruct (cleaned igl (read_obj igl mesh_path)) as [v f]. simpl.
  eexists. split; [reflexivity | apply Hn].
Qed.

Lemma load_mesh_normals_witness :
  per_vertex_normals_contract Demo.igl
  /\ exists normals uvs,
       result (load_mesh Demo.igl "/repo/src/target.obj")
       = Done (NDArray 3 Demo.square_v, NDArray 3 Demo.square_f, normals, uvs)
       /\ shape0 normals = 4%nat.
Proof.
  split; [exact demo_per_vertex_normals_contract |].
  destruct (load_mesh_normals_of_cleaned_mesh Demo.igl "/repo/src/target.obj"
              demo_per_vertex_normals_contract) as (uvs & Hrun & Hrows).
  eexists _, uvs. split; [exact Hrun | exact Hrows].
Defined.

(** C10: the uv array [load_mesh] returns is the [vt] array of the file as
    read, whatever the removal of unreferenced vertices does to the vertex
    and face arrays; it is neither filtered nor remapped. *)
Theorem load_mesh_returns_file_uvs igl mesh_path :
  let o := read_obj igl mesh_path in
  exists normals,
    result (load_mesh igl mesh_path)
    = Done ((cleaned igl o).1, (cleaned igl o).2, normals, obj_vt o).
Proof.
  cbv zeta. rewrite load_mesh_run. cbv zeta.
  destruct (cleaned igl (read_obj igl mesh_path)) as [v f]. simpl. by eexists.
Qed.

(** The target file of the small world has five vertices and five uv rows;
    one vertex is removed, the uv rows are all still there. *)
Lemma load_mesh_uvs_witness :
  shape0 (obj_v Demo.target_obj) = 5%nat
  /\ exists normals,
       result (load_mesh Demo.igl "/repo/src/target.obj")
       = Done (NDArray 3 Demo.square_v, NDArray 3 Demo.square_f, normals,
               NDArray 2 Demo.square_vt)
       /\ shape0 (NDArray 2 Demo.square_vt) = 5%nat.
Proof.
  split; [reflexivity |].
  destruct (load_mesh_returns_file_uvs Demo.igl "/repo/src/target.obj")
    as (normals & Hrun).
  exists normals. split; [exact Hrun | reflexivity].
Defined.

(** ** Properties of [main] *)

(** The source weights the script builds: 0.3 and 0.7 on every vertex. *)
Lemma skin_weights_rows (n : nat) :
  map (fun r : list float => <[1%nat := 0.7%float]> r)
    (map (fun r : list float => <[0%nat := 0.3%float]> r)
       (replicate n [1%float; 1%float]))
  = replicate n [0.3%float; 0.7%float].
Proof. induction n as [| n IH]; simpl; [done | by rewrite IH]. Qed.

(** An array with at least [j + 1] columns has a column [j]. *)
Lemma column_is_Some {A} (j : nat) (a : ndarray A) :
  rectangular a -> (j < ncols a)%nat -> is_Some (column j a).
Proof.
  intros Hrect Hj. unfold column.
  destruct (Nat.ltb_spec j (ncols a)) as [_ | ?]; [| lia].
  apply mapM_is_Some. eapply Forall_impl; [exact Hrect |].
  intros r Hr. apply lookup_lt_is_Some. simpl in Hr. lia.
Qed.

(** Every call of [smooth] the script makes passes the same two keywords. *)
Lemma main_smooth_parameters igl U cf src tgt out :
  Forall (fun sa => sa_num_smooth_iter_steps sa = 10
                    /\ sa_smooth_alpha sa = 0.2%float)
         (smooth_calls (trace (main igl U cf src tgt out))).
Proof. py_run; repeat constructor. Qed.

(** [inpaint] is called exactly once in every run. *)
Lemma main_calls_inpaint_once igl U cf src tgt out :
  exists ia, inpaint_calls (trace (main igl U cf src tgt out)) = [ia].
Proof. py_run; by eexists. Qed.

(** C1: when [inpaint] answers [success = false], the failure is a value the
    script inspects, not an exception: [main] prints
    "[Error] Inpainting failed." right after the call returned and ends the
    process with [exit(0)], without calling [smooth] and without writing the
    output file. *)
Theorem inpaint_failure_is_reported igl U cf src tgt out ia :
  inpaint_calls (trace (main igl U cf src tgt out)) = [ia] ->
  snd (inpaint U ia) = false ->
  result (main igl U cf src tgt out) = Exit 0
  /\ (exists before,
        trace (main igl U cf src tgt out)
        = before ++ [EInpaint ia; EPrint error_message])
  /\ smooth_calls (trace (main igl U cf src tgt out)) = []
  /\ json_dumps (trace (main igl U cf src tgt out)) = [].
Proof.
  py_run.
  all: intros [= <-] Hfail; recall; try discriminate.
  all: repeat split; try reflexivity; split_before.
Qed.

Lemma inpaint_failure_witness :
  inpaint_calls (trace Demo.far_run) = [Demo.far_inpaint_args]
  /\ snd (inpaint Demo.utilities Demo.far_inpaint_args) = false
  /\ result Demo.far_run = Exit 0
  /\ (exists before,
        trace Demo.far_run
        = before ++ [EInpaint Demo.far_inpaint_args; EPrint error_message])
  /\ smooth_calls (trace Demo.far_run) = []
  /\ json_dumps (trace Demo.far_run) = [].
Proof.
  assert (Hcall : inpaint_calls (trace Demo.far_run) = [Demo.far_inpaint_args])
    by (vm_compute; reflexivity).
  assert (Hfail : snd (inpaint Demo.utilities Demo.far_inpaint_args) = false)
    by (vm_compute; reflexivity).
  split; [exact Hcall |]. split; [exact Hfail |].
  exact (inpaint_failure_is_reported Demo.igl Demo.utilities Demo.folder
           "source.obj" "far.obj" "out.json" Demo.far_inpaint_args Hcall Hfail).
Defined.

(** C2: the three stages run in one direction.  The Matcher is called first,
    on the two loaded meshes and the source weights; the Inpainter receives
    exactly the flags and weights the Matcher returned; the Smoother receives
    exactly the weights the Inpainter returned and the same flags.  No call
    takes a value a later stage returns, and the calls are made in this
    order, the last one unless the run ended before it. *)
Theorem pipeline_runs_in_order igl U cf src tgt out :
  let s := read_obj igl (path_join cf src) in
  let t := read_obj igl (path_join cf tgt) in
  let vertices_1 := (cleaned igl s).1 in
  let faces_1 := (cleaned igl s).2 in
  let normals_1 := per_vertex_normals igl vertices_1 faces_1 in
  let vertices_2 := (cleaned igl t).1 in
  let faces_2 := (cleaned igl t).2 in
  let normals_2 := per_vertex_normals igl vertices_2 faces_2 in
  let skin_weights := NDArray 2 (replicate (shape0 vertices_1) [0.3; 0.7]%float) in
  let distance_threshold :=
    (0.05 * bounding_box_diagonal igl vertices_2)%float in
  let ma := MatchArgs vertices_1 faces_1 normals_1 vertices_2 faces_2 normals_2
              skin_weights (distance_threshold * distance_threshold)%float 30 in
  let matched := fst (find_matches_closest_surface U ma) in
  let interpolated_skin_weights := snd (find_matches_closest_surface U ma) in
  let ia := InpaintArgs vertices_2 faces_2 interpolated_skin_weights matched in
  let inpainted_weights := fst (inpaint U ia) in
  let success := snd (inpaint U ia) in
  let sa := SmoothArgs vertices_2 faces_2 inpainted_weights matched
              distance_threshold 10 0.2%float in
  let calls := core_calls (trace (main igl U cf src tgt out)) in
  result (load_mesh igl (path_join cf src))
  = Done (vertices_1, faces_1, normals_1, obj_vt s)
  /\ result (load_mesh igl (path_join cf tgt))
     = Done (vertices_2, faces_2, normals_2, obj_vt t)
  /\ (calls = [EFindMatches ma; EInpaint ia]
      \/ calls = [EFindMatches ma; EInpaint ia; ESmooth sa])
  /\ (success = false -> calls = [EFindMatches ma; EInpaint ia])
  /\ (success = true -> is_Some (column 0 inpainted_weights) ->
      is_Some (column 1 inpainted_weights) ->
      calls = [EFindMatches ma; EInpaint ia; ESmooth sa]).
Proof.
  cbv zeta. py_run.
  all: split; [reflexivity |]; split; [reflexivity |].
  all: rewrite ?skin_weights_rows in *; recall.
  all: split; [first [left; reflexivity | right; reflexivity] |].
  all: split; [intros ?; done |].
  all: intros ? [? ?] [? ?]; done.
Qed.

(** In the near run of the small world all three stages are called. *)
Lemma pipeline_runs_in_order_witness :
  exists ma ia sa,
    core_calls (trace Demo.near_run)
    = [EFindMatches ma; EInpaint ia; ESmooth sa]
    /\ ia_matched ia = fst (Demo.demo_find_matches ma)
    /\ ia_weights ia = snd (Demo.demo_find_matches ma)
    /\ sa_weights sa = fst (Demo.demo_inpaint ia)
    /\ sa_matched sa = ia_matched ia.
Proof.
  pose proof (pipeline_runs_in_order Demo.igl Demo.utilities Demo.folder
                "source.obj" "target.obj" "out.json") as H.
  cbv zeta in H. destruct H as (_ & _ & _ & _ & H).
  eexists _, _, _. split.
  - apply H; vm_compute; eauto.
  - repeat split.
Defined.

(** C6: [load_mesh] hands on the vertices and faces [igl.remove_unreferenced]
    returns for the arrays read from the file, and prints the warning exactly
    when the number of vertices changed.  Both meshes are loaded before the
    first call into the pipeline, so (libigl's removal returning a clean mesh
    for a file whose faces index existing vertices) the arrays
    [find_matches_closest_surface] receives have every face index within
    bounds and every vertex referenced by some face. *)
Theorem loaded_meshes_are_cleaned igl U cf src tgt out :
  let s := read_obj igl (path_join cf src) in
  let t := read_obj igl (path_join cf tgt) in
  remove_unreferenced_contract igl ->
  faces_in_bounds (obj_v s) (obj_f s) ->
  faces_in_bounds (obj_v t) (obj_f t) ->
  (forall mesh_path,
     let o := read_obj igl mesh_path in
     exists normals uvs,
       load_mesh igl mesh_path
       = (Done ((cleaned igl o).1, (cleaned igl o).2, normals, uvs),
          EReadObj mesh_path ::
            (if decide (shape0 (obj_v o) = shape0 (cleaned igl o).1) then []
             else [EPrint warning_message])))
  /\ exists ma before after,
       trace (main igl U cf src tgt out) = before ++ EFindMatches ma :: after
       /\ core_calls before = []
       /\ (ma_vertices_1 ma, ma_faces_1 ma) = cleaned igl s
       /\ (ma_vertices_2 ma, ma_faces_2 ma) = cleaned igl t
       /\ clean_mesh (ma_vertices_1 ma) (ma_faces_1 ma)
       /\ clean_mesh (ma_vertices_2 ma) (ma_faces_2 ma).
Proof.
  intros s t Hc Hs Ht. split.
  - intros mesh_path. cbv zeta. rewrite load_mesh_run. cbv zeta.
    destruct (cleaned igl (read_obj igl mesh_path)) as [v f]. simpl.
    by eexists _, _.
  - pose proof (cleaned_is_clean igl s Hc Hs) as Hs'.
    pose proof (cleaned_is_clean igl t Hc Ht) as Ht'.
    clear Hc Hs Ht. subst s t. revert Hs' Ht'.
    py_run; intros Hs' Ht'; split_at_match; done.
Qed.

Lemma loaded_meshes_witness :
  remove_unreferenced_contract Demo.igl
  /\ faces_in_bounds (obj_v Demo.source_obj) (obj_f Demo.source_obj)
  /\ faces_in_bounds (obj_v Demo.target_obj) (obj_f Demo.target_obj)
  /\ trace (load_mesh Demo.igl "/repo/src/target.obj")
     = [EReadObj "/repo/src/target.obj"; EPrint warning_message]
  /\ exists ma before after,
       trace Demo.near_run = before ++ EFindMatches ma :: after
       /\ core_calls before = []
       /\ clean_mesh (ma_vertices_1 ma) (ma_faces_1 ma)
       /\ clean_mesh (ma_vertices_2 ma) (ma_faces_2 ma).
Proof.
  assert (Hs : faces_in_bounds (obj_v Demo.source_obj) (obj_f Demo.source_obj))
    by (repeat constructor; simpl; lia).
  assert (Ht : faces_in_bounds (obj_v Demo.target_obj) (obj_f Demo.target_obj))
    by (repeat constructor; simpl; lia).
  split; [exact demo_remove_unreferenced_contract |].
  split; [exact Hs |]. split; [exact Ht |].
  destruct (loaded_meshes_are_cleaned Demo.igl Demo.utilities Demo.folder
              "source.obj" "target.obj" "out.json"
              demo_remove_unreferenced_contract Hs Ht)
    as (Hload & ma & before & after & Htrace & Hcore & _ & _ & Hc1 & Hc2).
  split.
  - destruct (Hload "/repo/src/target.obj") as (normals & uvs & Hrun).
    unfold trace. rewrite Hrun. reflexivity.
  - exists ma, before, after.
    split; [exact Htrace |]. split; [exact Hcore |].
    split; [exact Hc1 | exact Hc2].
Defined.

(** C8: when the script runs to its end it writes one JSON object, to the
    output path, with exactly the keys "vertices", "faces", "normals" and
    "uvs", holding the cleaned vertices and faces of the target mesh, the
    normals computed from them and the uvs as read from the file.  The
    object is fixed before [utilities] comes into play: whatever the
    pipeline returns, a run that ends writes the same object, and a run
    that does not end normally writes nothing. *)
Theorem output_json_is_the_target_mesh igl cf src tgt out :
  let t := read_obj igl (path_join cf tgt) in
  let vertices_2 := (cleaned igl t).1 in
  let faces_2 := (cleaned igl t).2 in
  let normals_2 := per_vertex_normals igl vertices_2 faces_2 in
  let uvs_2 := obj_vt t in
  let mesh_data := JDict [ ("vertices", tolist_float vertices_2);
                           ("faces", tolist_int faces_2);
                           ("normals", tolist_float normals_2);
                           ("uvs", tolist_float uvs_2) ] in
  result (load_mesh igl (path_join cf tgt))
  = Done (vertices_2, faces_2, normals_2, uvs_2)
  /\ dict_keys mesh_data = ["vertices"; "faces"; "normals"; "uvs"]
  /\ forall U : Utilities,
       (result (main igl U cf src tgt out) = Done tt ->
        json_dumps (trace (main igl U cf src tgt out))
        = [(path_join cf out, mesh_data)])
       /\ (result (main igl U cf src tgt out) <> Done tt ->
           json_dumps (trace (main igl U cf src tgt out)) = []).
Proof.
  cbv zeta. split; [| split; [reflexivity |]].
  - py_run; reflexivity.
  - intros U. py_run; split; intros; done.
Qed.

(** The near run of the small world ends and writes the cleaned square. *)
Lemma output_json_witness :
  result Demo.near_run = Done tt
  /\ json_dumps (trace Demo.near_run)
     = [("/repo/src/out.json",
         JDict [ ("vertices", tolist_float (NDArray 3 Demo.square_v));
                 ("faces", tolist_int (NDArray 3 Demo.square_f));
                 ("normals",
                  tolist_float
                    (NDArray 3 [ [0; 0; 1]; [0; 0; 1]; [0; 0; 1]; [0; 0; 1] ]%float));
                 ("uvs", tolist_float (NDArray 2 Demo.square_vt)) ])].
Proof.
  assert (Hdone : result Demo.near_run = Done tt) by (vm_compute; reflexivity).
  split; [exact Hdone |].
  pose proof (output_json_is_the_target_mesh Demo.igl Demo.folder
                "source.obj" "target.obj" "out.json") as H.
  cbv zeta in H. destruct H as (_ & _ & H).
  destruct (H Demo.utilities) as [Hwritten _].
  etransitivity; [exact (Hwritten Hdone) |].
  vm_compute. reflexivity.
Defined.

(** C9: both thresholds come from one value, [distance_threshold], which is
    0.05 times the bounding-box diagonal of the (cleaned) target vertices.
    The Matcher receives its square together with the angle threshold 30;
    every call of the Smoother receives the value itself. *)
Theorem thresholds_come_from_one_distance igl U cf src tgt out :
  let vertices_2 := (cleaned igl (read_obj igl (path_join cf tgt))).1 in
  let distance_threshold :=
    (0.05 * bounding_box_diagonal igl vertices_2)%float in
  (exists ma,
     match_calls (trace (main igl U cf src tgt out)) = [ma]
     /\ ma_vertices_2 ma = vertices_2
     /\ ma_distance_threshold_squared ma
        = (distance_threshold * distance_threshold)%float
     /\ ma_angle_threshold_degrees ma = 30)
  /\ Forall (fun sa => sa_distance_threshold sa = distance_threshold)
            (smooth_calls (trace (main igl U cf src tgt out)))
  /\ (result (main igl U cf src tgt out) = Done tt ->
      exists sa, smooth_calls (trace (main igl U cf src tgt out)) = [sa]).
Proof.
  cbv zeta. py_run.
  all: split; [eexists; repeat split; reflexivity |].
  all: split; [repeat constructor | intros; try done; by eexists].
Qed.

(** The unit square has diagonal [sqrt 2]. *)
Lemma thresholds_witness :
  exists ma sa,
    match_calls (trace Demo.near_run) = [ma]
    /\ smooth_calls (trace Demo.near_run) = [sa]
    /\ sa_distance_threshold sa = (0.05 * PrimFloat.sqrt 2)%float
    /\ ma_distance_threshold_squared ma
       = (sa_distance_threshold sa * sa_distance_threshold sa)%float
    /\ ma_angle_threshold_degrees ma = 30.
Proof.
  pose proof (thresholds_come_from_one_distance Demo.igl Demo.utilities
                Demo.folder "source.obj" "target.obj" "out.json") as H.
  cbv zeta in H. destruct H as ((ma & Hma & _ & Hsq & Hang) & Hall & Hsmooth).
  destruct Hsmooth as [sa Hsa]; [vm_compute; reflexivity |].
  fold Demo.near_run in Hma, Hall, Hsa.
  rewrite Hsa in Hall. apply Forall_cons in Hall as [Hdist _].
  exists ma, sa. split; [exact Hma |]. split; [exact Hsa |].
  split; [rewrite Hdist; vm_compute; reflexivity |].
  split; [by rewrite Hsq, Hdist | exact Hang].
Defined.

(** C5, as the code has it: [smooth] takes the iteration count and the
    relaxation factor as parameters, and [main] passes the same two
    constants in every call, [num_smooth_iter_steps = 10] and
    [smooth_alpha = 0.2], a value in (0, 1]; neither depends on what the
    script is run with.  A run that reaches its end has made the call. *)
Theorem smoothing_parameters_are_fixed igl U cf src tgt out :
  Forall (fun sa => sa_num_smooth_iter_steps sa = 10
                    /\ sa_smooth_alpha sa = 0.2%float)
         (smooth_calls (trace (main igl U cf src tgt out)))
  /\ (0 <? 0.2)%float = true /\ (0.2 <=? 1)%float = true
  /\ (result (main igl U cf src tgt out) = Done tt ->
      exists sa, smooth_calls (trace (main igl U cf src tgt out)) = [sa]).
Proof.
  split; [apply main_smooth_parameters |].
  split; [reflexivity |]. split; [reflexivity |].
  py_run; intros; try done; by eexists.
Qed.

Lemma smoothing_parameters_witness :
  exists sa,
    smooth_calls (trace Demo.near_run) = [sa]
    /\ sa_num_smooth_iter_steps sa = 10
    /\ sa_smooth_alpha sa = 0.2%float.
Proof.
  destruct (smoothing_parameters_are_fixed Demo.igl Demo.utilities Demo.folder
              "source.obj" "target.obj" "out.json") as (Hall & _ & _ & Hcall).
  destruct Hcall as [sa Hsa]; [vm_compute; reflexivity |].
  fold Demo.near_run in Hall, Hsa.
  rewrite Hsa in Hall. apply Forall_cons in Hall as [[Hn Ha] _].
  by exists sa.
Defined.

(** C5 as stated fails: 3 iterations with relaxation factor 0.5 is a
    setting within the stated range, and no way of running the script makes
    it reach [smooth]. *)
Lemma smoothing_is_not_tunable :
  (0 <? 0.5)%float = true /\ (0.5 <=? 1)%float = true
  /\ ~ exists source_mesh target_mesh output_file sa,
         sa ∈ smooth_calls
                (trace (main Demo.igl Demo.utilities Demo.folder
                          source_mesh target_mesh output_file))
         /\ sa_num_smooth_iter_steps sa = 3
         /\ sa_smooth_alpha sa = 0.5%float.
Proof.
  split; [reflexivity |]. split; [reflexivity |].
  intros (src & tgt & out & sa & Hin & Hn & _).
  pose proof (main_smooth_parameters Demo.igl Demo.utilities Demo.folder
                src tgt out) as H.
  rewrite Forall_forall in H. destruct (H sa Hin) as [H10 _]. lia.
Qed.

(** ** Properties of the Matcher *)

Module MatcherFacts.
Import Matcher.

Lemma gate_spec d2 theta thr ang :
  gate d2 theta thr ang = true
  <-> (d2 <=? thr)%float = true /\ (theta <=? ang)%float = true.
Proof. unfold gate. apply andb_true_iff. Qed.

(** The flag of target vertex [v] is the gate applied to its [d²] and
    [θ]. *)
Lemma flags_lookup project arccos_degrees sV sF sN sW tV tN thr ang
    (v : nat) p n :
  tV !! v = Some p -> tN !! v = Some n ->
  fst (match_ project arccos_degrees sV sF sN sW tV tN thr ang) !! v
  = Some (gate (squared_distance project sV sF sN (vec_of_row p))
               (normal_angle project arccos_degrees sV sF sN
                  (vec_of_row p) (vec_of_row n))
               thr ang).
Proof.
  intros Hp Hn. unfold match_. simpl.
  rewrite list_lookup_fmap, lookup_zip_with, Hp. simpl. rewrite Hn. simpl.
  unfold match_vertex. by destruct (gate _ _ _ _).
Qed.

End MatcherFacts.

(** C4: a target vertex is marked matched if and only if both gates pass:
    its squared distance to the closest point of the source surface is at
    most [squaredDistanceThreshold] and the angle between its normal and the
    interpolated source normal there is at most [angleThresholdDegrees].
    The bounds are tight: a vertex exactly on both thresholds is matched,
    and one whose distance or angle lies beyond its threshold is not. *)
Theorem matched_iff_both_gates
    project arccos_degrees sourceVertices sourceFaces sourceNormals
    sourceWeights targetVertices targetNormals
    squaredDistanceThreshold angleThresholdDegrees
    (v : nat) (p n : list float) :
  targetVertices !! v = Some p ->
  targetNormals !! v = Some n ->
  let d2 := Matcher.squared_distance project sourceVertices sourceFaces
              sourceNormals (vec_of_row p) in
  let theta := Matcher.normal_angle project arccos_degrees sourceVertices
                 sourceFaces sourceNormals (vec_of_row p) (vec_of_row n) in
  let matched := fst (Matcher.match_ project arccos_degrees sourceVertices
                        sourceFaces sourceNormals sourceWeights
                        targetVertices targetNormals
                        squaredDistanceThreshold angleThresholdDegrees) in
  (matched !! v = Some true
   <-> (d2 <=? squaredDistanceThreshold)%float = true
       /\ (theta <=? angleThresholdDegrees)%float = true)
  /\ (matched !! v = Some false
      <-> (d2 <=? squaredDistanceThreshold)%float = false
          \/ (theta <=? angleThresholdDegrees)%float = false)
  /\ ((squaredDistanceThreshold <? d2)%float = true ->
      matched !! v = Some false)
  /\ ((angleThresholdDegrees <? theta)%float = true ->
      matched !! v = Some false)
  /\ (PrimFloat.is_nan d2 = false -> PrimFloat.is_nan theta = false ->
      d2 = squaredDistanceThreshold -> theta = angleThresholdDegrees ->
      matched !! v = Some true).
Proof.
  intros Hp Hn d2 theta matched.
  assert (Hflag : matched !! v
                  = Some (Matcher.gate d2 theta squaredDistanceThreshold
                            angleThresholdDegrees))
    by (by apply MatcherFacts.flags_lookup).
  rewrite Hflag. clear Hflag. split; [| split; [| split; [| split]]].
  - rewrite <- MatcherFacts.gate_spec.
    split; [by intros [= ->] | by intros ->].
  - unfold Matcher.gate. rewrite <- andb_false_iff.
    split; [by intros [= ->] | by intros ->].
  - intros Hlt. apply FloatFacts.ltb_not_leb in Hlt. unfold Matcher.gate.
    by rewrite Hlt.
  - intros Hlt. apply FloatFacts.ltb_not_leb in Hlt. unfold Matcher.gate.
    by rewrite Hlt, andb_false_r.
  - intros Hd Ht <- <-. unfold Matcher.gate.
    by rewrite !FloatFacts.leb_refl.
Qed.

(** The first probe lies on the source and faces the same way; the second
    is 25 away (squared) from it, beyond the threshold 0.01. *)
Lemma matched_iff_both_gates_witness :
  fst Matcher.probe_match !! 0%nat = Some true
  /\ fst Matcher.probe_match !! 1%nat = Some false.
Proof.
  destruct (matched_iff_both_gates Matcher.nearest_corner
              Matcher.rough_arccos_degrees Matcher.square_vertices
              Matcher.square_faces Matcher.square_normals Matcher.square_weights
              Matcher.probe_vertices Matcher.probe_normals 0.01 30
              0%nat [1; 1; 0]%float [0; 0; 1]%float eq_refl eq_refl)
    as ([_ Hnear] & _).
  destruct (matched_iff_both_gates Matcher.nearest_corner
              Matcher.rough_arccos_degrees Matcher.square_vertices
              Matcher.square_faces Matcher.square_normals Matcher.square_weights
              Matcher.probe_vertices Matcher.probe_normals 0.01 30
              1%nat [1; 1; 5]%float [0; 0; 1]%float eq_refl eq_refl)
    as (_ & _ & Hfar & _).
  split.
  - apply Hnear. split; vm_compute; reflexivity.
  - apply Hfar. vm_compute. reflexivity.
Defined.

(** ** Properties of the Inpainter *)

Module InpainterFacts.
Import Inpainter.

Lemma row_sum_length rs :
  forall acc, (length (foldl row_add acc rs) <= length acc)%nat.
Proof.
  induction rs as [| r rs IH]; intros acc; simpl; [lia |].
  etransitivity; [apply IH |]. unfold row_add. rewrite length_zip_with. lia.
Qed.

Lemma mean_length k rs : (length (mean k rs) <= k)%nat.
Proof.
  unfold mean. rewrite length_map.
  etransitivity; [apply row_sum_length |]. by rewrite length_replicate.
Qed.

(** A row that passed the convergence test holds finite values only. *)
Lemma close_enough_finite tol (r : list float) : forall r',
  PrimFloat.is_finite tol = true ->
  (length r' <= length r)%nat ->
  close_enough tol r r' = true ->
  Forall (fun x => finite x = true) r'.
Proof.
  unfold close_enough.
  induction r as [| a r IH]; intros [| b r'] Htol Hlen Hclose; simpl in *;
    try constructor; try lia.
  - apply andb_true_iff in Hclose as [Hb _].
    by apply (FloatFacts.close_finite a b tol).
  - apply andb_true_iff in Hclose as [_ Hrest]. apply IH; [done | lia | done].
Qed.

Section SolveFacts.
Variables (faces : list (list Z)) (matched : list bool) (tol : float).
Hypothesis tol_finite : PrimFloat.is_finite tol = true.

Lemma sweep_length x : length (sweep faces matched x) = length x.
Proof. apply length_imap. Qed.

(** A sweep leaves the row of a matched vertex as it is. *)
Lemma sweep_matched x v :
  is_matched matched v = true -> sweep faces matched x !! v = x !! v.
Proof.
  intros Hm. unfold sweep. rewrite list_lookup_imap.
  destruct (x !! v) as [r |]; simpl; [| done]. by rewrite Hm.
Qed.

Lemma sweep_unmatched x v r r' :
  is_matched matched v = false -> x !! v = Some r ->
  sweep faces matched x !! v = Some r' -> (length r' <= length r)%nat.
Proof.
  intros Hm Hr. unfold sweep. rewrite list_lookup_imap, Hr. simpl.
  rewrite Hm. intros [= <-]. apply mean_length.
Qed.

Lemma converged_lookup x x' v r r' :
  converged matched tol x x' = true ->
  x !! v = Some r -> x' !! v = Some r' ->
  is_matched matched v = true \/ close_enough tol r r' = true.
Proof.
  unfold converged. intros Hc Hr Hr'.
  apply Is_true_true, forallb_True in Hc.
  rewrite Forall_lookup in Hc.
  specialize (Hc v (v, (r, r'))). simpl in Hc.
  apply orb_true_iff, Is_true_true, Hc.
  apply lookup_zip_Some. split.
  - apply lookup_seq. split; [done |]. by apply lookup_lt_Some in Hr.
  - by apply lookup_zip_Some.
Qed.

(** What the solver returns within its budget: as many rows as it
    started from, the matched rows untouched, the other rows finite. *)
Lemma iterate_sound budget : forall x y,
  iterate faces matched tol budget x = Some y ->
  length y = length x
  /\ (forall v, is_matched matched v = true -> y !! v = x !! v)
  /\ (forall v r, is_matched matched v = false -> y !! v = Some r ->
        Forall (fun a => finite a = true) r).
Proof.
  induction budget as [| budget IH]; intros x y; simpl; [done |].
  destruct (converged matched tol x (sweep faces matched x)) eqn:Hc.
  - intros [= <-]. split; [apply sweep_length |].
    split; [intros; by apply sweep_matched |].
    intros v r' Hm Hr'.
    destruct (lookup_lt_is_Some_2 x v) as [r Hr].
    { apply lookup_lt_Some in Hr'. by rewrite sweep_length in Hr'. }
    destruct (converged_lookup _ _ _ _ _ Hc Hr Hr') as [Hm' | Hclose];
      [congruence |].
    eapply close_enough_finite; [done | | done].
    by eapply sweep_unmatched.
  - intros Hy. destruct (IH _ _ Hy) as (Hlen & Hsame & Hfin).
    split; [by rewrite Hlen, sweep_length |]. split; [| done].
    intros v Hm. rewrite Hsame by done. by apply sweep_matched.
Qed.

Lemma initial_length prov : length (initial matched prov) = length prov.
Proof. apply length_imap. Qed.

Lemma initial_matched prov v :
  is_matched matched v = true -> initial matched prov !! v = prov !! v.
Proof.
  intros Hm. unfold initial. rewrite list_lookup_imap.
  destruct (prov !! v); simpl; [| done]. by rewrite Hm.
Qed.
End SolveFacts.

End InpainterFacts.

(** C3: the weight vector [inpaint] returns for a matched vertex is its
    provisional one, unchanged; and when [inpaint] succeeds every unmatched
    vertex has a weight vector, of finite values. *)
Theorem inpaint_keeps_matched_fills_unmatched
    (budget : nat) (tolerance : float) (targetFaces : list (list Z))
    (provisionalWeights filledWeights : ndarray float)
    (matchedFlags : list bool) (success : bool) :
  length matchedFlags = shape0 provisionalWeights ->
  PrimFloat.is_finite tolerance = true ->
  Inpainter.inpaint budget tolerance targetFaces provisionalWeights matchedFlags
  = (filledWeights, success) ->
  (forall v : nat,
     matchedFlags !! v = Some true ->
     rows filledWeights !! v = rows provisionalWeights !! v)
  /\ (success = true ->
      shape0 filledWeights = shape0 provisionalWeights
      /\ forall v : nat,
           matchedFlags !! v = Some false ->
           exists r, rows filledWeights !! v = Some r
                     /\ Forall (fun x => Inpainter.finite x = true) r).
Proof.
  intros Hlen Htol. unfold Inpainter.inpaint.
  destruct (Inpainter.anchored targetFaces matchedFlags); simpl;
    [| intros [= <- <-]; split; [done | discriminate]].
  destruct (Inpainter.iterate _ _ _ _ _) as [x |] eqn:Hx;
    [| intros [= <- <-]; split; [done | discriminate]].
  intros [= <- <-]. simpl.
  destruct (InpainterFacts.iterate_sound _ _ _ Htol _ _ _ Hx)
    as (Hl & Hsame & Hfin).
  rewrite InpainterFacts.initial_length in Hl. split.
  - intros v Hv.
    rewrite Hsame, InpainterFacts.initial_matched;
      unfold Inpainter.is_matched; by rewrite ?Hv.
  - intros _. split; [exact Hl |]. intros v Hv.
    destruct (lookup_lt_is_Some_2 x v) as [r Hr].
    { apply lookup_lt_Some in Hv. unfold shape0 in Hlen. lia. }
    exists r. split; [done |]. apply (Hfin v); [| done].
    unfold Inpainter.is_matched. by rewrite Hv.
Qed.

(** On the strip the solve succeeds within 200 sweeps: the two matched rows
    are as given, the four others hold finite values. *)
Lemma inpaint_witness :
  Inpainter.inpaint 200 0.000001 Inpainter.strip_faces Inpainter.strip_weights
    Inpainter.strip_matched
  = (Inpainter.strip_filled, true)
  /\ rows Inpainter.strip_filled !! 1%nat = Some [0.3; 0.7]%float
  /\ exists r, rows Inpainter.strip_filled !! 4%nat = Some r
               /\ Forall (fun x => Inpainter.finite x = true) r.
Proof.
  assert (Hrun : Inpainter.inpaint 200 0.000001 Inpainter.strip_faces
                   Inpainter.strip_weights Inpainter.strip_matched
                 = (Inpainter.strip_filled, true))
    by (vm_compute; reflexivity).
  split; [exact Hrun |].
  destruct (inpaint_keeps_matched_fills_unmatched 200 0.000001
              Inpainter.strip_faces Inpainter.strip_weights
              Inpainter.strip_filled Inpainter.strip_matched true
              eq_refl eq_refl Hrun) as [Hkept Hfilled].
  split.
  - rewrite (Hkept 1%nat); reflexivity.
  - destruct (Hfilled eq_refl) as [_ H]. apply (H 4%nat). reflexivity.
Defined.

(** ** Further properties of the script *)

Lemma column_Some_cols {A} (j : nat) (a : ndarray A) l :
  column j a = Some l -> (j < ncols a)%nat.
Proof.
  unfold column. destruct (Nat.ltb_spec j (ncols a)); [done | discriminate].
Qed.


(** X2: when [inpaint] reports success but returns fewer than the two
    columns the script displays, [IndexError] is raised before [smooth] is
    called; nothing is written and the viewer is not opened. *)
Theorem narrow_inpaint_result_raises igl U cf src tgt out ia :
  inpaint_calls (trace (main igl U cf src tgt out)) = [ia] ->
  snd (inpaint U ia) = true ->
  (ncols (fst (inpaint U ia)) < 2)%nat ->
  result (main igl U cf src tgt out) = Raised IndexError
  /\ smooth_calls (trace (main igl U cf src tgt out)) = []
  /\ json_dumps (trace (main igl U cf src tgt out)) = []
  /\ shows (trace (main igl U cf src tgt out)) = 0%nat.
Proof.
  py_run.
  all: intros [= <-] Hok Hcols; recall_calls; try discriminate.
  all: try (repeat split; reflexivity).
  all: exfalso.
  all: match goal with
       | H : column 1 _ = Some _ |- _ => apply column_Some_cols in H; lia
       end.
Qed.

Lemma narrow_inpaint_witness :
  inpaint_calls (trace Edge.narrow_inpaint_run) = [Edge.near_inpaint_args]
  /\ snd (Edge.narrow_inpaint Edge.near_inpaint_args) = true
  /\ (ncols (fst (Edge.narrow_inpaint Edge.near_inpaint_args)) < 2)%nat
  /\ result Edge.narrow_inpaint_run = Raised IndexError
  /\ smooth_calls (trace Edge.narrow_inpaint_run) = []
  /\ json_dumps (trace Edge.narrow_inpaint_run) = []
  /\ shows (trace Edge.narrow_inpaint_run) = 0%nat.
Proof.
  assert (Hcall : inpaint_calls (trace Edge.narrow_inpaint_run)
                  = [Edge.near_inpaint_args]) by (vm_compute; reflexivity).
  assert (Hcols : (ncols (fst (Edge.narrow_inpaint Edge.near_inpaint_args))
                   < 2)%nat)
    by (simpl; lia).
  split; [exact Hcall |]. split; [reflexivity |]. split; [exact Hcols |].
  exact (narrow_inpaint_result_raises Demo.igl Edge.narrow_inpaint_utilities
           Demo.folder "source.obj" "target.obj" "out.json"
           Edge.near_inpaint_args Hcall eq_refl Hcols).
Defined.

(** X3: when [smooth] returns fewer than two columns, [IndexError] is raised
    after the call: its result is lost, the output file is not written and
    the viewer is not opened. *)
Theorem narrow_smooth_result_raises igl U cf src tgt out sa :
  smooth_calls (trace (main igl U cf src tgt out)) = [sa] ->
  (ncols (fst (smooth U sa)) < 2)%nat ->
  result (main igl U cf src tgt out) = Raised IndexError
  /\ json_dumps (trace (main igl U cf src tgt out)) = []
  /\ shows (trace (main igl U cf src tgt out)) = 0%nat.
Proof.
  py_run.
  all: intros Hcall Hcols; try discriminate.
  all: injection Hcall as <-; recall_calls.
  all: try (repeat split; reflexivity).
  all: exfalso.
  all: match goal with
       | H : column 1 ?w = Some _, Hc : (ncols ?w < 2)%nat |- _ =>
           apply column_Some_cols in H; lia
       end.
Qed.

Lemma narrow_smooth_witness :
  exists sa,
    smooth_calls (trace Edge.narrow_smooth_run) = [sa]
    /\ (ncols (fst (Edge.narrow_smooth sa)) < 2)%nat
    /\ result Edge.narrow_smooth_run = Raised IndexError
    /\ json_dumps (trace Edge.narrow_smooth_run) = []
    /\ shows (trace Edge.narrow_smooth_run) = 0%nat.
Proof.
  destruct (smooth_calls (trace Edge.narrow_smooth_run))
    as [| sa [| ? ?]] eqn:Hcall;
    try (vm_compute in Hcall; discriminate).
  exists sa.
  assert (Hcols : (ncols (fst (Edge.narrow_smooth sa)) < 2)%nat)
    by (simpl; lia).
  split; [reflexivity |]. split; [exact Hcols |].
  exact (narrow_smooth_result_raises Demo.igl Edge.narrow_smooth_utilities
           Demo.folder "source.obj" "target.obj" "out.json" sa Hcall Hcols).
Defined.

(** X4: the polyscope calls are well ordered in every run.  [ps.init()]
    comes first; every quantity is added to a mesh registered before; the
    viewer is opened at most once, as the last action, and exactly in the
    runs that return; in those runs the output file is written just before,
    and nowhere earlier. *)
Theorem polyscope_calls_are_well_ordered igl U cf src tgt out :
  head (trace (main igl U cf src tgt out)) = Some EPsInit
  /\ quantities_on_registered [] (trace (main igl U cf src tgt out)) = true
  /\ (result (main igl U cf src tgt out) = Done tt
      <-> last (trace (main igl U cf src tgt out)) = Some EPsShow)
  /\ (shows (trace (main igl U cf src tgt out)) <= 1)%nat
  /\ (result (main igl U cf src tgt out) = Done tt ->
      exists before path data,
        trace (main igl U cf src tgt out)
        = before ++ [EJsonDump path data; EPsShow]
        /\ json_dumps before = [] /\ shows before = 0%nat).
Proof.
  py_run.
  all: split; [reflexivity |]; split; [reflexivity |].
  all: split; [split; intros; done |]; split; [lia |].
  all: intros ?; try done.
  all: match goal with
       | |- exists before path data, ?l = _ /\ _ =>
           exists (take (length l - 2) l); do 2 eexists;
           split; [reflexivity | split; reflexivity]
       end.
Qed.

(** X5: the script prints nothing but, in this order, the warning of the
    source mesh if its load printed one, the warning of the target mesh if
    its load printed one, and the error message if [inpaint] failed. *)
Theorem main_prints_warnings_then_error igl U cf src tgt out :
  exists ia,
    inpaint_calls (trace (main igl U cf src tgt out)) = [ia]
    /\ printed (trace (main igl U cf src tgt out))
       = printed (trace (load_mesh igl (path_join cf src)))
         ++ printed (trace (load_mesh igl (path_join cf tgt)))
         ++ (if snd (inpaint U ia) then [] else [error_message])
    /\ (printed (trace (load_mesh igl (path_join cf src))) = []
        \/ printed (trace (load_mesh igl (path_join cf src)))
           = [warning_message])
    /\ (printed (trace (load_mesh igl (path_join cf tgt))) = []
        \/ printed (trace (load_mesh igl (path_join cf tgt)))
           = [warning_message]).
Proof.
  py_run.
  all: eexists; split; [reflexivity |]; recall_calls.
  all: split; [reflexivity |]; split; auto.
Qed.





(** The square of a binary64 number is never below zero (it is not a number
    when the number is not). *)
Lemma square_not_negative (d : float) : (d * d <? 0)%float = false.
Proof.
  rewrite FloatAxioms.ltb_spec, FloatAxioms.mul_spec.
  change (Prim2SF 0) with (S754_zero false).
  unfold SF64mul, SFltb.
  destruct (Prim2SF d) as [s | s | | s m e]; simpl;
    try reflexivity; try (by destruct s).
  unfold binary_round_aux.
  repeat match goal with
         | |- context [shr_fexp ?a ?b ?c ?d ?e] =>
             destruct (shr_fexp a b c d e)
         end.
  match goal with
  | |- context [shr_m ?r] => destruct (shr_m r)
  end;
    [| match goal with
       | |- context [(?x <=? ?y)%Z] => destruct (x <=? y)%Z
       end |];
    by destruct s.
Qed.

(** X8: the squared distance threshold the Matcher receives is never
    negative, whatever libigl returns as the bounding-box diagonal. *)
Theorem squared_threshold_is_not_negative igl U cf src tgt out :
  Forall (fun ma => (ma_distance_threshold_squared ma <? 0)%float = false)
         (match_calls (trace (main igl U cf src tgt out))).
Proof. py_run; repeat constructor; apply square_not_negative. Qed.

(** The reference model meets the second contract of
    [igl.remove_unreferenced]. *)
Module ReferenceCount.
Import Reference.

Lemma compact_kept_length mark : forall i count,
  length (compact mark i count).2 = length (List.filter id mark).
Proof.
  induction mark as [| b mark IH]; intros i count; simpl; [done |].
  destruct b; simpl.
  - specialize (IH (S i) (S count)).
    destruct (compact mark (S i) (S count)). simpl in *. by rewrite IH.
  - specialize (IH (S i) count).
    destruct (compact mark (S i) count). simpl in *. done.
Qed.

Lemma compact_kept_bound mark : forall i count j,
  j ∈ (compact mark i count).2 -> (i <= j < i + length mark)%nat.
Proof.
  induction mark as [| b mark IH]; intros i count j; simpl.
  - by intros ?%elem_of_nil.
  - destruct b.
    + specialize (IH (S i) (S count) j).
      destruct (compact mark (S i) (S count)). simpl in *.
      intros [-> | Hj]%elem_of_cons; [lia |]. specialize (IH Hj). lia.
    + specialize (IH (S i) count j).
      destruct (compact mark (S i) count). simpl in *.
      intros Hj. specialize (IH Hj). lia.
Qed.

Lemma filter_id_full (mark : list bool) :
  length (List.filter id mark) = length mark
  <-> forall i, (i < length mark)%nat -> mark !! i = Some true.
Proof.
  induction mark as [| b mark IH]; simpl.
  - split; [intros _ i Hi; lia | done].
  - assert (Hle : (length (List.filter id mark) <= length mark)%nat)
      by apply List.filter_length_le.
    destruct b; simpl.
    + split.
      * intros Hlen [| i] Hi; [done |]. simpl. apply IH; lia.
      * intros Hall. f_equal. apply IH. intros i Hi. apply (Hall (S i)). lia.
    + split; [lia |]. intros Hall. specialize (Hall 0%nat). simpl in Hall.
      by discriminate Hall; lia.
Qed.

Lemma remove_unreferenced_count v f :
  let '(nv, _, _, _) := Reference.remove_unreferenced v f in
  shape0 nv = shape0 v <-> fully_referenced v f.
Proof.
  unfold Reference.remove_unreferenced.
  pose proof (compact_kept_length (mark_referenced (shape0 v) (rows f)) 0 0)
    as Hlen.
  pose proof (compact_kept_bound (mark_referenced (shape0 v) (rows f)) 0 0)
    as Hbound.
  destruct (compact (mark_referenced (shape0 v) (rows f)) 0 0) as [o kept].
  simpl in Hlen, Hbound.
  assert (Hrows : shape0 (NDArray (ncols v)
                            (omap (fun j : nat => rows v !! j) kept))
                  = length kept).
  { unfold shape0. simpl. apply ReferenceFacts.length_omap_total.
    apply Forall_forall. intros j Hj. apply Hbound in Hj.
    rewrite ReferenceFacts.mark_referenced_length in Hj.
    apply lookup_lt_is_Some. unfold shape0 in Hj. lia. }
  rewrite Hrows, Hlen.
  rewrite <- (ReferenceFacts.mark_referenced_length (shape0 v) (rows f)) at 2.
  rewrite filter_id_full, ReferenceFacts.mark_referenced_length.
  unfold fully_referenced. rewrite Forall_forall. split.
  - intros Hall i Hi%elem_of_seq. apply Exists_exists.
    apply (ReferenceFacts.mark_referenced_lookup (shape0 v)); [lia |].
    apply Hall. lia.
  - intros Hall i Hi.
    apply (ReferenceFacts.mark_referenced_lookup (shape0 v)); [done |].
    apply Exists_exists, Hall, elem_of_seq. lia.
Qed.

End ReferenceCount.

Lemma demo_remove_unreferenced_count_contract :
  remove_unreferenced_count_contract Demo.igl.
Proof. intros v f _. apply ReferenceCount.remove_unreferenced_count. Qed.

(** X9: the warning of [load_mesh] tells the truth.  For a file whose faces
    index existing vertices (libigl keeping the vertex count exactly when no
    vertex is unreferenced), [load_mesh] prints the warning when the file
    has a vertex no face refers to, and prints nothing when it has none. *)
Theorem warning_iff_unreferenced_vertex igl mesh_path :
  remove_unreferenced_count_contract igl ->
  let o := read_obj igl mesh_path in
  faces_in_bounds (obj_v o) (obj_f o) ->
  (printed (trace (load_mesh igl mesh_path)) = []
   <-> fully_referenced (obj_v o) (obj_f o))
  /\ (printed (trace (load_mesh igl mesh_path)) = [warning_message]
      <-> ~ fully_referenced (obj_v o) (obj_f o)).
Proof.
  intros Hc o Hb. specialize (Hc _ _ Hb). subst o. revert Hc.
  rewrite load_mesh_run. cbv zeta. unfold cleaned.
  destruct (remove_unreferenced igl _ _) as [[[v f] ?] ?]. simpl.
  intros Hc.
  assert (Hc' : shape0 (obj_v (read_obj igl mesh_path)) = shape0 v
                <-> fully_referenced (obj_v (read_obj igl mesh_path))
                      (obj_f (read_obj igl mesh_path)))
    by (rewrite <- Hc; split; intros; done).
  clear Hc. destruct (decide _) as [Heq | Hne]; simpl.
  - split; [split; [intros _; by apply Hc' | done] |].
    split; [done | intros Hno; destruct Hno; by apply Hc'].
  - split; [split; [done | intros Hall; destruct Hne; by apply Hc'] |].
    split; [intros _ Hall; destruct Hne; by apply Hc' | done].
Qed.

Lemma warning_witness :
  remove_unreferenced_count_contract Demo.igl
  /\ faces_in_bounds (obj_v Demo.target_obj) (obj_f Demo.target_obj)
  /\ ~ fully_referenced (obj_v Demo.target_obj) (obj_f Demo.target_obj)
  /\ printed (trace (load_mesh Demo.igl "/repo/src/target.obj"))
     = [warning_message].
Proof.
  assert (Hb : faces_in_bounds (obj_v Demo.target_obj) (obj_f Demo.target_obj))
    by (repeat constructor; simpl; lia).
  assert (Hno : ~ fully_referenced (obj_v Demo.target_obj)
                    (obj_f Demo.target_obj))
    by (apply (bool_decide_eq_false_1
                 (fully_referenced (obj_v Demo.target_obj)
                    (obj_f Demo.target_obj)));
        vm_compute; reflexivity).
  split; [exact demo_remove_unreferenced_count_contract |].
  split; [exact Hb |]. split; [exact Hno |].
  destruct (warning_iff_unreferenced_vertex Demo.igl "/repo/src/target.obj"
              demo_remove_unreferenced_count_contract Hb) as [_ [_ H]].
  exact (H Hno).
Defined.

(** X10: the mesh a run writes is a clean mesh.  For a target file whose
    faces index existing vertices (libigl meeting its contracts), the
    written "faces" index the written "vertices", every written vertex is
    referenced by a written face, and there is one written normal per
    written vertex. *)
Theorem written_mesh_is_clean igl U cf src tgt out :
  remove_unreferenced_contract igl ->
  per_vertex_normals_contract igl ->
  let t := read_obj igl (path_join cf tgt) in
  faces_in_bounds (obj_v t) (obj_f t) ->
  result (main igl U cf src tgt out) = Done tt ->
  exists path v f n uv,
    json_dumps (trace (main igl U cf src tgt out))
    = [(path, JDict [ ("vertices", tolist_float v); ("faces", tolist_int f);
                      ("normals", tolist_float n); ("uvs", tolist_float uv) ])]
    /\ clean_mesh v f
    /\ shape0 n = shape0 v.
Proof.
  intros Hc Hn t Hb.
  pose proof (cleaned_is_clean igl t Hc Hb) as Hclean.
  clear Hc Hb. subst t. revert Hclean.
  py_run; intros Hclean Hdone; try discriminate.
  all: eexists _, _, _, _, _; split; [reflexivity |].
  all: split; [exact Hclean | apply Hn].
Qed.

Lemma written_mesh_witness :
  remove_unreferenced_contract Demo.igl
  /\ per_vertex_normals_contract Demo.igl
  /\ faces_in_bounds (obj_v Demo.target_obj) (obj_f Demo.target_obj)
  /\ result Demo.near_run = Done tt
  /\ exists path v f n uv,
       json_dumps (trace Demo.near_run)
       = [(path, JDict [ ("vertices", tolist_float v); ("faces", tolist_int f);
                         ("normals", tolist_float n);
                         ("uvs", tolist_float uv) ])]
       /\ clean_mesh v f
       /\ shape0 n = shape0 v.
Proof.
  assert (Hb : faces_in_bounds (obj_v Demo.target_obj) (obj_f Demo.target_obj))
    by (repeat constructor; simpl; lia).
  assert (Hdone : result Demo.near_run = Done tt) by (vm_compute; reflexivity).
  split; [exact demo_remove_unreferenced_contract |].
  split; [exact demo_per_vertex_normals_contract |].
  split; [exact Hb |]. split; [exact Hdone |].
  exact (written_mesh_is_clean Demo.igl Demo.utilities Demo.folder
           "source.obj" "target.obj" "out.json"
           demo_remove_unreferenced_contract demo_per_vertex_normals_contract
           Hb Hdone).
Defined.

